(** * Juliett: a model of [juliett.js] and the properties of its classes

    The development embeds the data-carrying classes of the library
    ([Enumerator], [BaseItem], [BaseItemList], [DataField], [Payload],
    [BaseController], [DataController]) as Rocq functions over a small
    universe of JavaScript values.  Methods that throw return a
    [completion]; methods that assign to private fields return the new
    object state next to it; calls into client code are recorded in a
    trace.  The model comes first, then the theorems. *)

From stdpp Require Import base gmap list strings.
From Stdlib Require Import ZArith Ascii DecimalString DecimalN DecimalPos Lia.

Open Scope string_scope.
Open Scope Z_scope.
Open Scope list_scope.

(* ===================================================================== *)
(** * Part 1: the model *)
(* ===================================================================== *)

(** ** JavaScript values *)

(** Function objects are told apart by what the model can do with them:
    a [Closure] is a function of the client program (its behaviour is
    given by a function environment), a [Method] is a method of a class
    of this library, a [Native] is a built-in of the host.  A function
    object has no properties of its own beyond the name that the table
    of names of a program gives it. *)
Inductive func : Set :=
| Closure (id : nat)
| Method (cls name : string)
| Native (name : string).

(** An object carries the names of the constructors along its prototype
    chain, most derived first (["Payload"; "Object"] for [new Payload(..)],
    ["Object"] for an object literal), and its fields.  Private fields
    are kept in the same table under their [#name]; the methods that a
    class of the client gives its instances are entries of the table as
    well, with a function as value. *)
#[warnings="-register-all"]
Inductive value : Type :=
| VUndefined
| VNull
| VBool (b : bool)
| VNum (n : Z)
| VStr (s : string)
| VFun (f : func)
| VArr (elems : list value)
| VObj (chain : list string) (props : list (string * value)).

(** Outcome of evaluating a piece of code: a value, or a thrown one. *)
Inductive completion (A : Type) : Type :=
| Normal (a : A)
| Throw (e : value).
Arguments Normal {A} a.
Arguments Throw {A} e.

(** Error objects; the message text is not part of the model. *)
Definition Error : value := VObj ["Error"; "Object"] [].
Definition TypeError : value := VObj ["TypeError"; "Error"; "Object"] [].
Definition RangeError : value := VObj ["RangeError"; "Error"; "Object"] [].

Definition func_eqb (f g : func) : bool :=
  match f, g with
  | Closure i, Closure j => Nat.eqb i j
  | Method c m, Method c' m' => String.eqb c c' && String.eqb m m'
  | Native n, Native n' => String.eqb n n'
  | _, _ => false
  end.

(** [typeof v] *)
Definition typeof (v : value) : string :=
  match v with
  | VUndefined => "undefined"
  | VNull => "object"
  | VBool _ => "boolean"
  | VNum _ => "number"
  | VStr _ => "string"
  | VFun _ => "function"
  | VArr _ | VObj _ _ => "object"
  end.

(** [v == null] *)
Definition loose_eq_null (v : value) : bool :=
  match v with
  | VUndefined | VNull => true
  | _ => false
  end.

(** [v instanceof C] for a class [C] of this library or of the client. *)
Definition instanceof (v : value) (C : string) : bool :=
  match v with
  | VObj chain _ => existsb (String.eqb C) chain
  | VArr _ => String.eqb C "Array" || String.eqb C "Object"
  | VFun _ => String.eqb C "Function" || String.eqb C "Object"
  | _ => false
  end.

(** [ToBoolean] *)
Definition ToBoolean (v : value) : bool :=
  match v with
  | VUndefined | VNull => false
  | VBool b => b
  | VNum n => negb (Z.eqb n 0)
  | VStr s => negb (String.eqb s "")
  | VFun _ | VArr _ | VObj _ _ => true
  end.

Definition string_of_Z (n : Z) : string :=
  NilZero.string_of_int (Z.to_int n).

Fixpoint join (sep : string) (l : list string) : string :=
  match l with
  | [] => ""
  | [s] => s
  | s :: l' => s +:+ sep +:+ join sep l'
  end.

(** [ToString] for values that bring no conversion method of their
    own: objects are converted by the inherited
    [Object.prototype.toString] and arrays by [Array.prototype.join];
    the text of a function is its source, which the model does not
    carry: it is rendered like a built-in's.  [ToString_client] below
    is the conversion that follows the methods an object has itself. *)
Fixpoint ToString (v : value) : string :=
  match v with
  | VUndefined => "undefined"
  | VNull => "null"
  | VBool true => "true"
  | VBool false => "false"
  | VNum n => string_of_Z n
  | VStr s => s
  | VFun _ => "function () { [native code] }"
  | VArr elems =>
      join "," (map (fun e => if loose_eq_null e then "" else ToString e) elems)
  | VObj _ _ => "[object Object]"
  end.

(** [ToPropertyKey] (symbols are not modelled). *)
Definition ToPropertyKey (v : value) : string := ToString v.

(** A property key is an array index when it is the canonical decimal
    text of an integer below 2^32 - 1. *)
Definition array_index (key : string) : option nat :=
  match NilZero.uint_of_string key with
  | Some d =>
      let n := N.of_uint d in
      if String.eqb (NilZero.string_of_uint (N.to_uint n)) key
         && N.ltb n 4294967295
      then Some (N.to_nat n) else None
  | None => None
  end.

(** *** Ordinary objects and arrays *)

Fixpoint assoc (key : string) (props : list (string * value)) : option value :=
  match props with
  | [] => None
  | (k, v) :: rest => if String.eqb k key then Some v else assoc key rest
  end.

(** [obj[key] = v] on own properties: an existing property keeps its
    place, a new one goes last. *)
Fixpoint assoc_set (key : string) (v : value) (props : list (string * value))
  : list (string * value) :=
  match props with
  | [] => [(key, v)]
  | (k, w) :: rest =>
      if String.eqb k key then (k, v) :: rest else (k, w) :: assoc_set key v rest
  end.

(** The properties every ordinary object inherits from [Object.prototype]
    (ECMAScript 2022, with the Annex B accessors). *)
Definition Object_prototype_keys : list string :=
  ["constructor"; "hasOwnProperty"; "isPrototypeOf"; "propertyIsEnumerable";
   "toLocaleString"; "toString"; "valueOf"; "__proto__";
   "__defineGetter__"; "__defineSetter__"; "__lookupGetter__"; "__lookupSetter__"].

(** The further properties an array inherits from [Array.prototype]. *)
Definition Array_prototype_keys : list string :=
  ["at"; "concat"; "copyWithin"; "entries"; "every"; "fill"; "filter"; "find";
   "findIndex"; "flat"; "flatMap"; "forEach"; "includes"; "indexOf"; "join";
   "keys"; "lastIndexOf"; "map"; "pop"; "push"; "reduce"; "reduceRight";
   "reverse"; "shift"; "slice"; "some"; "sort"; "splice"; "unshift"; "values"].

Definition mem (key : string) (keys : list string) : bool :=
  existsb (String.eqb key) keys.

Definition inherited_from_Object (key : string) : value :=
  if String.eqb key "__proto__" then VObj [] []
  else VFun (Native ("Object.prototype." +:+ key)).

(** [key in obj] for an object literal [obj]. *)
Definition object_has (props : list (string * value)) (key : string) : bool :=
  match assoc key props with
  | Some _ => true
  | None => mem key Object_prototype_keys
  end.

(** [obj[key]] for an object literal [obj]. *)
Definition object_get (props : list (string * value)) (key : string) : value :=
  match assoc key props with
  | Some v => v
  | None =>
      if mem key Object_prototype_keys then inherited_from_Object key
      else VUndefined
  end.

(** [arr[key]] for an array [arr]. *)
Definition array_get (elems : list value) (key : string) : value :=
  match array_index key with
  | Some i => nth i elems VUndefined
  | None =>
      if String.eqb key "length" then VNum (Z.of_nat (List.length elems))
      else if mem key Array_prototype_keys
      then VFun (Native ("Array.prototype." +:+ key))
      else if mem key Object_prototype_keys then inherited_from_Object key
      else VUndefined
  end.

Fixpoint insert_sorted (i : nat) (l : list nat) : list nat :=
  match l with
  | [] => [i]
  | j :: l' => if Nat.leb i j then i :: l else j :: insert_sorted i l'
  end.

(** [Reflect.ownKeys(obj)]: the array-index keys in ascending order, then
    the other keys in the order of their creation. *)
Definition Reflect_ownKeys (props : list (string * value)) : list value :=
  let keys := map fst props in
  let indices := foldr insert_sorted [] (omap array_index keys) in
  let names := filter (fun k => array_index k = None) keys in
  map (fun i => VStr (string_of_Z (Z.of_nat i))) indices ++ map VStr names.

(** ** [Enumerator] *)

Module Enumerator.

(** [new Enumerator(obj)] is a [Proxy] around [obj]; the model keeps
    the target and gives the three traps. *)
Record t : Type := new { target : list (string * value) }.

(** The [get] trap: [(prop in obj) ? obj[prop] : null]. *)
Definition get (e : t) (prop : string) : value :=
  if object_has (target e) prop then object_get (target e) prop else VNull.

(** The [set] trap: [obj[prop] = value; return true]. *)
Definition set (e : t) (prop : string) (v : value) : t * bool :=
  (new (assoc_set prop v (target e)), true).

(** The [has] trap. *)
Definition has (e : t) (prop : string) : value :=
  if object_has (target e) prop then object_get (target e) prop
  else array_get (Reflect_ownKeys (target e)) prop.

(** [v in e] for an operand that brings no conversion method of its
    own: the operand is turned into a property key, the [has] trap is
    called and its result is turned into a boolean. *)
Definition in_ (v : value) (e : t) : bool :=
  ToBoolean (has e (ToPropertyKey v)).

End Enumerator.

Definition ViewControllerAction : Enumerator.t :=
  Enumerator.new
    [("Create", VNum 1); ("Edit", VNum 2); ("Remove", VNum 3);
     ("Load", VNum 4); ("Custom", VNum 5)].

Definition DataFieldType : Enumerator.t :=
  Enumerator.new
    [("String", VNum 1); ("Number", VNum 2); ("DateTime", VNum 3);
     ("Boolean", VNum 4)].

Definition DataControllerStatus : Enumerator.t :=
  Enumerator.new [("Succeeded", VBool true); ("Failed", VBool false)].

(** ** Calls into client code *)

(** A call of a function object, as the model observes it. *)
Record call : Type := Call { callee : func; arguments : list value }.

Definition trace : Type := list call.

(** The client program: what the closure [id] does when it is called on
    the given arguments, as far as the library can tell: it returns a
    value or it throws one.  What a closure does to the objects it can
    reach is not followed. *)
Definition client : Type := nat -> list value -> completion value.

(** Code that calls out: the calls made, in order, and the outcome. *)
Definition effect (A : Type) : Type := trace * completion A.

Definition eret {A} (a : A) : effect A := ([], Normal a).

Definition ethrow {A} (e : value) : effect A := ([], Throw e).

Definition ebind {A B} (m : effect A) (k : A -> effect B) : effect B :=
  match m with
  | (t, Normal a) => let (t', r) := k a in (t ++ t', r)
  | (t, Throw e) => (t, Throw e)
  end.

#[global] Instance effect_ret : MRet effect := @eret.
#[global] Instance effect_bind : MBind effect := fun A B k m => ebind m k.

(** [f(args)] outside the classes of the library: a closure runs in the
    client; a method of the library reads private fields its receiver
    does not have; of a built-in the model only knows that it returns. *)
Definition call_function (env : client) (f : func) (args : list value)
  : effect value :=
  match f with
  | Closure id => ([Call f args], env id args)
  | Method _ _ => ethrow TypeError
  | Native _ => eret VUndefined
  end.

(** [Object.getPrototypeOf(v).constructor.name]: the constructor is the
    one the prototype chain gives, whatever own properties [v] has, and
    reading it from [null], [undefined] or an object without prototype
    throws. *)
Definition constructor_name (v : value) : completion string :=
  match v with
  | VUndefined | VNull => Throw TypeError
  | VBool _ => Normal "Boolean"
  | VNum _ => Normal "Number"
  | VStr _ => Normal "String"
  | VFun _ => Normal "Function"
  | VArr _ => Normal "Array"
  | VObj (c :: _) _ => Normal c
  | VObj [] _ => Throw TypeError
  end.

(** ** Conversions and property reads that depend on the value's own
    properties *)

#[global] Instance completion_ret : MRet completion := @Normal.
#[global] Instance completion_bind : MBind completion :=
  fun A B k m => match m with Normal a => k a | Throw e => Throw e end.

(** Code that calls nothing. *)
Definition lift {A} (r : completion A) : effect A := ([], r).

Definition primitive (v : value) : bool :=
  match v with
  | VFun _ | VArr _ | VObj _ _ => false
  | _ => true
  end.

(** One step of [OrdinaryToPrimitive] on an object with the own
    properties [props]: the method [name], when the object has it as a
    function of its own, is called without arguments, and its result
    counts when it is a primitive value. *)
Definition try_method (env : client) (props : list (string * value))
    (name : string) : effect (option value) :=
  match assoc name props with
  | Some (VFun f) =>
      r ← call_function env f [];
      mret (if primitive r then Some r else None)
  | _ => mret None
  end.

(** [ToString] where it can call out, as in a template literal
    [`${v}`] and in [ToPropertyKey].  An object is converted by its
    [toString] and, failing that, its [valueOf]: its own ones are
    functions of the client; the inherited [Object.prototype.toString]
    gives ["[object Object]"], the inherited [valueOf] gives the object
    back, which does not count, and an object left without a primitive
    value makes the conversion throw a [TypeError].  An array joins the
    conversions of its elements. *)
Fixpoint ToString_client (env : client) (v : value) : effect string :=
  match v with
  | VArr elems =>
      strings ←
        (fix each (es : list value) : effect (list string) :=
           match es with
           | [] => mret []
           | e :: es' =>
               s ← (if loose_eq_null e then mret "" else ToString_client env e);
               ss ← each es';
               mret (s :: ss)
           end) elems;
      mret (join "," strings)
  | VObj chain props =>
      match assoc "toString" props, chain with
      | None, _ :: _ => mret "[object Object]"
      | _, _ =>
          r ← try_method env props "toString";
          match r with
          | Some p => mret (ToString p)
          | None =>
              r ← try_method env props "valueOf";
              match r with
              | Some p => mret (ToString p)
              | None => ethrow TypeError
              end
          end
      end
  | _ => mret (ToString v)
  end.

(** The class [c] itself, the function its prototype holds under
    [constructor]. *)
Definition class (c : string) : value := VFun (Method c "constructor").

(** [v.constructor]: an own property of that name, or else what the
    prototype chain gives. *)
Definition Get_constructor (v : value) : completion value :=
  match v with
  | VObj chain props =>
      match assoc "constructor" props, chain with
      | Some c, _ => Normal c
      | None, c :: _ => Normal (class c)
      | None, [] => Normal VUndefined
      end
  | _ => c ← constructor_name v; mret (class c)
  end.

(** The part of a dotted name after its last dot. *)
Fixpoint last_segment (s : string) : string :=
  match s with
  | EmptyString => EmptyString
  | String c s' =>
      if existsb (Ascii.eqb (Ascii.ascii_of_nat 46)) (String.list_ascii_of_string s')
      then last_segment s'
      else if Ascii.eqb c (Ascii.ascii_of_nat 46) then s' else s
  end.

(** The classes of errors of the host: their prototypes have a [name]. *)
Definition error_classes : list string :=
  ["Error"; "TypeError"; "RangeError"; "ReferenceError"; "SyntaxError";
   "EvalError"; "URIError"; "AggregateError"].

(** The name a function has from its declaration: that of its class
    for a class, that of the method for a method; the functions of the
    client are taken to be anonymous here. *)
Definition declared_name (f : func) : value :=
  match f with
  | Closure _ => VStr EmptyString
  | Method cls m => VStr (if String.eqb m "constructor" then cls else m)
  | Native n => VStr (last_segment n)
  end.

(** [c.name].  For a function, [names] gives what the property reads:
    the name the function was declared with, unless the program has
    put something else in its place, as a class does that declares a
    static member [name].  An object has the [name] it holds itself,
    or the one an error class gives it; other values have none. *)
Definition Get_name (names : func -> value) (c : value) : completion value :=
  match c with
  | VUndefined | VNull => Throw TypeError
  | VFun f => Normal (names f)
  | VObj chain props =>
      match assoc "name" props with
      | Some n => Normal n
      | None =>
          Normal (match List.find (fun c => mem c error_classes) chain with
                  | Some c => VStr c
                  | None => VUndefined
                  end)
      end
  | VBool _ | VNum _ | VStr _ | VArr _ => Normal VUndefined
  end.

(** [v.constructor.name] *)
Definition reads_name (names : func -> value) (v : value) : completion value :=
  c ← Get_constructor v; Get_name names c.

(** The evaluation of [`${v.constructor.name}`] inside the message of an
    error: the two reads, then the conversion of what was read. *)
Definition constructor_name_text (names : func -> value) (env : client)
    (v : value) : effect unit :=
  n ← lift (reads_name names v);
  _ ← ToString_client env n;
  mret tt.

(** The evaluation of [`${v}`] inside the message of an error. *)
Definition text (env : client) (v : value) : effect unit :=
  _ ← ToString_client env v; mret tt.

(** [Object.getPrototypeOf(v).constructor.name], read through [names]. *)
Definition prototype_name (names : func -> value) (v : value) : completion value :=
  c ← constructor_name v; mret (names (Method c "constructor")).

(** The evaluation of [`${Object.getPrototypeOf(v).constructor.name}`]
    inside the message of an error. *)
Definition prototype_name_text (names : func -> value) (env : client)
    (v : value) : effect unit :=
  n ← lift (prototype_name names v);
  _ ← ToString_client env n;
  mret tt.

(** ** [BaseItem] *)

Module BaseItem.

(** [new C(obj)] for [C] the class [BaseItem] or one that extends it:
    [derived] names the classes below [BaseItem], most derived first. *)
Definition new (derived : list string) (obj : value) : completion value :=
  let chain := derived ++ ["BaseItem"; "Object"] in
  match constructor_name (VObj chain []), constructor_name obj with
  | Normal parent, Normal contentType =>
      Normal (VObj chain [("#content", obj); ("#parent", VStr parent);
                          ("#contentType", VStr contentType)])
  | Throw e, _ | _, Throw e => Throw e
  end.

Definition field (name : string) (this : value) : value :=
  match this with
  | VObj _ props => default VUndefined (assoc name props)
  | _ => VUndefined
  end.

Definition content (this : value) : value := field "#content" this.
Definition parent (this : value) : value := field "#parent" this.
Definition contentType (this : value) : value := field "#contentType" this.

Definition set_content (obj : value) (this : value) : value :=
  match this with
  | VObj chain props => VObj chain (assoc_set "#content" obj props)
  | _ => this
  end.

Definition toJSON (this : value) : value := content this.

End BaseItem.

(** ** [BaseItemList] *)

Module BaseItemList.

(** [#length] is an integer-valued number and [#items] an array, kept
    as the map from its indices to its elements: an index without an
    entry is a hole and reads as [undefined].  The methods of this
    module compute with the integers as they are, and say what is
    thrown without following how its message is built: they describe
    the list while its length stays where the numbers of the host are
    exact.  [BaseItemList64] below has the same methods with the
    arithmetic of the host and the messages evaluated. *)
Record t : Type := mk { priv_length : Z; priv_items : gmap Z value }.

Definition new : t := mk 0 ∅.

Definition length (this : t) : Z := priv_length this.

Definition set_length (newValue : Z) (this : t) : t :=
  mk newValue (priv_items this).

Definition items (this : t) : gmap Z value := priv_items this.

(** [arr[index]] *)
Definition element (arr : gmap Z value) (index : Z) : value :=
  default VUndefined (arr !! index).

Definition item (index : Z) (this : t) : completion value :=
  if (index <? 0) || (index >? length this - 1) then Throw RangeError
  else Normal (element (items this) index).

(** [this.#items[this.length] = obj; this.#length++] behind the guard. *)
Definition push (obj : value) (this : t) : completion unit * t :=
  if loose_eq_null obj || negb (instanceof obj "BaseItem")
  then (Throw TypeError, this)
  else
    let this1 := mk (priv_length this) (<[length this := obj]> (priv_items this)) in
    (Normal tt, mk (priv_length this1 + 1) (priv_items this1)).

(** [delete this.#items[--this.length]], the decrement going through the
    getter and the setter of [length]. *)
Definition pop (this : t) : t :=
  if length this >? 0 then
    let this1 := set_length (length this - 1) this in
    mk (priv_length this1) (base.delete (length this1) (priv_items this1))
  else this.

(** [delete this.#items[index]; this.#length--] behind the guard. *)
Definition delete (index : Z) (this : t) : completion unit * t :=
  if (index <? 0) || (index >? length this - 1) then (Throw RangeError, this)
  else
    let this1 := mk (priv_length this) (base.delete index (priv_items this)) in
    (Normal tt, mk (priv_length this1 - 1) (priv_items this1)).

(** The message of the [TypeError] of [replace] names a variable
    [element] that is bound nowhere, so building it throws. *)
Definition ReferenceError : value :=
  VObj ["ReferenceError"; "Error"; "Object"] [].

Definition replace (index : Z) (obj : value) (this : t) : completion unit * t :=
  if (index <? 0) || (index >? length this - 1) then (Throw RangeError, this)
  else if loose_eq_null obj || negb (instanceof obj "BaseItem")
  then (Throw ReferenceError, this)
  else (Normal tt, mk (priv_length this) (<[index := obj]> (priv_items this))).

Definition clear (this : t) : t := mk 0 ∅.

Definition toJSON (this : t) : gmap Z value := items this.

End BaseItemList.

(** ** [BaseItemList], with the numbers of the host *)

(** A number of the host is a 64-bit binary floating-point number.  A
    list is described here for lengths and indices that are such
    numbers without a fraction, that is, integers.  What adding or
    subtracting 1 gives is then an integer again: the exact one, [z],
    when it has at most 53 significant bits, and else the nearest
    integer that has, the one with an even last bit when two are as
    near.  (The largest of these numbers, near 2^1024, is out of the
    reach of steps of 1.) *)
Definition round53 (z : Z) : Z :=
  let m := Z.abs z in
  if m <? 2 ^ 53 then z
  else
    let e := Z.log2 m - 52 in
    let q := m / 2 ^ e in
    let r := m mod 2 ^ e in
    let up := (2 ^ (e - 1) <? r) || ((r =? 2 ^ (e - 1)) && Z.odd q) in
    Z.sgn z * ((if up then q + 1 else q) * 2 ^ e).

Module BaseItemList64.

(** The state is that of [BaseItemList]: the setter of [length] stores
    the number it is given, and [new], [clear] and the getters compute
    nothing. *)
Definition t : Type := BaseItemList.t.

(** [index < 0 || index > this.length-1] *)
Definition out_of_bounds (index : Z) (this : t) : bool :=
  (index <? 0) || (index >? round53 (BaseItemList.length this - 1)).

(** The message of the [RangeError] quotes the index, a number, whose
    conversion calls nothing. *)
Definition item (index : Z) (this : t) : completion value :=
  if out_of_bounds index this then Throw RangeError
  else Normal (BaseItemList.element (BaseItemList.items this) index).

(** [push(obj)].  The message of the [TypeError] names the constructor
    of [obj], which is read from [obj] and converted to a string before
    the error is thrown, and then the constructor of the list, a class. *)
Definition push (names : func -> value) (env : client) (obj : value) (this : t)
  : effect unit * t :=
  if loose_eq_null obj || negb (instanceof obj "BaseItem")
  then (_ ← constructor_name_text names env obj; ethrow TypeError, this)
  else
    let this1 :=
      BaseItemList.mk (BaseItemList.priv_length this)
        (<[BaseItemList.length this := obj]> (BaseItemList.priv_items this)) in
    (eret tt,
     BaseItemList.mk (round53 (BaseItemList.priv_length this1 + 1))
       (BaseItemList.priv_items this1)).

Definition pop (this : t) : t :=
  if BaseItemList.length this >? 0 then
    let this1 :=
      BaseItemList.set_length (round53 (BaseItemList.length this - 1)) this in
    BaseItemList.mk (BaseItemList.priv_length this1)
      (base.delete (BaseItemList.length this1) (BaseItemList.priv_items this1))
  else this.

Definition delete (index : Z) (this : t) : completion unit * t :=
  if out_of_bounds index this then (Throw RangeError, this)
  else
    let this1 :=
      BaseItemList.mk (BaseItemList.priv_length this)
        (base.delete index (BaseItemList.priv_items this)) in
    (Normal tt,
     BaseItemList.mk (round53 (BaseItemList.priv_length this1 - 1))
       (BaseItemList.priv_items this1)).

(** The message of the [TypeError] of [replace] starts with the
    variable [element], bound nowhere: evaluating it throws a
    [ReferenceError] before anything else of the message is read. *)
Definition replace (index : Z) (obj : value) (this : t) : completion unit * t :=
  if out_of_bounds index this then (Throw RangeError, this)
  else if loose_eq_null obj || negb (instanceof obj "BaseItem")
  then (Throw BaseItemList.ReferenceError, this)
  else (Normal tt,
        BaseItemList.mk (BaseItemList.priv_length this)
          (<[index := obj]> (BaseItemList.priv_items this))).

End BaseItemList64.

(** ** [DataField] *)

Module DataField.

Record t : Type := mk {
  fieldName : value;
  fieldType : value;
  fieldValue : value;
  isRequired : value;
  onValidateCallback : value
}.

(** [cb.bind(this)]: the result is dropped by the constructor, so only
    the calls made and the outcome are kept. *)
Definition bind_callback (env : client) (cb this : value) : effect unit :=
  match cb with
  | VUndefined | VNull => ethrow TypeError
  | VFun _ => eret tt
  | VObj _ props =>
      match assoc "bind" props with
      | Some (VFun f) => _ ← call_function env f [this]; mret tt
      | _ => ethrow TypeError
      end
  | _ => ethrow TypeError
  end.

(** The object under construction, as the callback's [bind] sees it. *)
Definition as_value (this : t) : value :=
  VObj ["DataField"; "Object"]
    [("fieldName", fieldName this); ("fieldType", fieldType this);
     ("fieldValue", fieldValue this); ("isRequired", isRequired this);
     ("onValidateCallback", onValidateCallback this)].

(** [new DataField(fieldName, fieldType, fieldValue, isRequired,
    onValidateCallback)]; a missing [isRequired] is [false].  The test
    [fieldType in DataFieldType] turns [fieldType] into a property key
    first, which for an object runs its conversion methods, and then
    asks the [has] trap. *)
Definition new (env : client)
    (fieldName fieldType fieldValue isRequired onValidateCallback : value)
  : effect t :=
  key ← ToString_client env fieldType;
  if negb (ToBoolean (Enumerator.has DataFieldType key)) then ethrow TypeError
  else
    let isRequired :=
      match isRequired with VUndefined => VBool false | _ => isRequired end in
    let this := mk fieldName fieldType fieldValue isRequired onValidateCallback in
    _ ← bind_callback env onValidateCallback (as_value this);
    mret this.

Definition validate (env : client) (this : t) : effect value :=
  match onValidateCallback this with
  | VFun f => call_function env f []
  | _ => ethrow TypeError
  end.

End DataField.

(** ** Regular expressions *)

Module RegExp.

(** The fragment of the pattern language the library uses, without
    assertions: a leading [^] is rendered by [test] itself, which
    matches from the first character only. *)
Inductive t : Type :=
| Void                                (* matches nothing *)
| Eps                                 (* matches the empty string *)
| Chr (c : ascii)
| Dot                                 (* [.] *)
| Class (ranges : list (ascii * ascii)) (* [[a-z0-9...]] *)
| Seq (r1 r2 : t)
| Alt (r1 r2 : t)                     (* [r1|r2] *)
| Star (r : t).

Definition Opt (r : t) : t := Alt r Eps.   (* [r?] *)
Definition Plus (r : t) : t := Seq r (Star r). (* [r+] *)

Fixpoint Lit (s : string) : t :=
  match s with
  | EmptyString => Eps
  | String c s' => Seq (Chr c) (Lit s')
  end.

Definition code (c : ascii) : N := N_of_ascii c.

(** [.] matches every character but the line terminators. *)
Definition line_terminator (c : ascii) : bool :=
  N.eqb (code c) 10 || N.eqb (code c) 13.

Definition in_class (ranges : list (ascii * ascii)) (c : ascii) : bool :=
  existsb (fun '(lo, hi) => N.leb (code lo) (code c) && N.leb (code c) (code hi))
          ranges.

Fixpoint nullable (r : t) : bool :=
  match r with
  | Void | Chr _ | Dot | Class _ => false
  | Eps | Star _ => true
  | Seq r1 r2 => nullable r1 && nullable r2
  | Alt r1 r2 => nullable r1 || nullable r2
  end.

(** What [r] still has to match once it has read [c]. *)
Fixpoint deriv (c : ascii) (r : t) : t :=
  match r with
  | Void | Eps => Void
  | Chr c' => if Ascii.eqb c c' then Eps else Void
  | Dot => if line_terminator c then Void else Eps
  | Class ranges => if in_class ranges c then Eps else Void
  | Seq r1 r2 =>
      if nullable r1 then Alt (Seq (deriv c r1) r2) (deriv c r2)
      else Seq (deriv c r1) r2
  | Alt r1 r2 => Alt (deriv c r1) (deriv c r2)
  | Star r1 => Seq (deriv c r1) (Star r1)
  end.

(** [/^r/.test(s)]: some prefix of [s] matches [r]. *)
Fixpoint test (r : t) (s : string) : bool :=
  nullable r ||
  match s with
  | EmptyString => false
  | String c s' => test (deriv c r) s'
  end.

End RegExp.

(** [/^(http)s?:\/\/(www|localhost)(.|\/)[a-z0-9-\.\/]+/] *)
Definition PATTERN_URL : RegExp.t :=
  let ch (s : string) : ascii :=
    match s with String c _ => c | EmptyString => Ascii.zero end in
  RegExp.Seq (RegExp.Lit "http")
    (RegExp.Seq (RegExp.Opt (RegExp.Chr (ch "s")))
       (RegExp.Seq (RegExp.Lit "://")
          (RegExp.Seq (RegExp.Alt (RegExp.Lit "www") (RegExp.Lit "localhost"))
             (RegExp.Seq (RegExp.Alt RegExp.Dot (RegExp.Chr (ch "/")))
                (RegExp.Plus
                   (RegExp.Class
                      [(ch "a", ch "z"); (ch "0", ch "9"); (ch "-", ch "-");
                       (ch ".", ch "."); (ch "/", ch "/")])))))).

(** ** JSON *)

(** The document a JSON text denotes. *)
#[warnings="-register-all"]
Inductive json : Type :=
| JNull
| JBool (b : bool)
| JNum (n : Z)
| JStr (s : string)
| JArr (elems : list json)
| JObj (members : list (string * json)).

Definition private_name (key : string) : bool :=
  match key with
  | String c _ => Ascii.eqb c (Ascii.ascii_of_nat 35)
  | EmptyString => false
  end.

(** [JSON.stringify(v)], as the document written; [None] when the
    result is [undefined] and no text is produced.  An object whose
    class has a [toJSON] method is first replaced by what the method
    returns: [Payload.prototype.toJSON] returns [this.content], and
    [content] is an accessor of [Payload] with a setter only, which
    reads as [undefined]; [BaseItem.prototype.toJSON] returns
    [this.content], which [BaseItem] reads from [#content], and
    [BaseItemList.prototype.toJSON] returns [this.items], the array in
    [#items].  The method is applied once: what it returns is written
    as it is ([toJSON] false), while the members and elements inside it
    are again values to serialise ([toJSON] true).  An object is
    written member by
    member, private fields and members without a JSON form left out.
    The model follows the [toJSON] of the classes of the library only:
    objects that bring a [toJSON] of their own, or inherit one from a
    class of the client or of the host, are not described by it. *)
Fixpoint SerializeJSONProperty (toJSON : bool) (v : value) : option json :=
  match v with
  | VUndefined | VFun _ => None
  | VNull => Some JNull
  | VBool b => Some (JBool b)
  | VNum n => Some (JNum n)
  | VStr s => Some (JStr s)
  | VArr elems =>
      Some (JArr (map (fun e => default JNull (SerializeJSONProperty true e)) elems))
  | VObj chain props =>
      let field (key : string) :=
        (fix field (ps : list (string * value)) : option json :=
           match ps with
           | [] => None
           | (k, x) :: ps' =>
               if String.eqb k key then SerializeJSONProperty false x
               else field ps'
           end) props in
      if toJSON && mem "Payload" chain then None
      else if toJSON && mem "BaseItem" chain then field "#content"
      else if toJSON && mem "BaseItemList" chain then field "#items"
      else
        Some (JObj
          ((fix members (ps : list (string * value)) : list (string * json) :=
              match ps with
              | [] => []
              | (k, x) :: ps' =>
                  match (if private_name k then None
                         else SerializeJSONProperty true x) with
                  | Some j => (k, j) :: members ps'
                  | None => members ps'
                  end
              end) props))
  end.

Definition JSON_stringify (v : value) : option json :=
  SerializeJSONProperty true v.

(** ** [Payload] *)

Module Payload.

(** [#requestor] holds what [requestor.constructor.name] gave, a string
    for an object that has its constructor from its class. *)
Record t : Type := mk { priv_content : list value; priv_requestor : value }.

(** [new Payload(requestor)], where [names] gives the names of the
    functions and classes of the program.  What the guard turns away is
    [null], [undefined], a primitive value or a function, whose
    constructor is a class of the host: the message of the [TypeError]
    is built without a call, or reading the constructor of [null]
    throws a [TypeError] in its place. *)
Definition new (names : func -> value) (requestor : value) : completion t :=
  if loose_eq_null requestor || negb (String.eqb (typeof requestor) "object")
  then Throw TypeError
  else
    name ← reads_name names requestor;
    mret (mk [] name).

(** [this.content = newValue] *)
Definition set_content (newValue : value) (this : t) : t :=
  mk (priv_content this ++ [newValue]) (priv_requestor this).

(** [this.content]: the class declares [set content] and no
    [get content], so reading the property gives [undefined]. *)
Definition content (this : t) : value := VUndefined.

Definition clearContent (this : t) : t := mk [] (priv_requestor this).

(** [addContent(obj)], where [now] is what [Date.now()] returns. *)
Definition addContent (now : Z) (obj : value) (this : t) : t :=
  set_content
    (VObj ["Object"]
       [("header", VObj ["Object"]
                     [("requestor", priv_requestor this);
                      ("time", VNum now)]);
        ("body", obj)])
    this.

Definition toJSON (this : t) : value := content this.

(** The instance as a value. *)
Definition as_value (this : t) : value :=
  VObj ["Payload"; "Object"]
    [("#content", VArr (priv_content this));
     ("#requestor", priv_requestor this)].

End Payload.

(** ** The host: [XMLHttpRequest] and [Promise] *)

(** What a [readystatechange] listener reads from the request object. *)
Record XMLHttpRequest : Type := mkXHR {
  readyState : Z;
  status : Z;
  responseText : string
}.

(** The host a controller runs in: whether [window.XMLHttpRequest]
    exists, and what the request object shows at each of the
    [readystatechange] events it fires, in order. *)
Record Host : Type := mkHost {
  window_XMLHttpRequest : bool;
  readystatechange : list XMLHttpRequest
}.

(** What [open], [setRequestHeader] and [send] put on the wire. *)
Record HttpRequest : Type := mkRequest {
  method : string;
  url : value;
  headers : list (string * string);
  body : option json
}.

(** The exception of the host that [open] throws for an address it
    cannot parse (a [DOMException] by the name of [SyntaxError]). *)
Definition DOMException : value := VObj ["DOMException"; "Error"; "Object"] [].

Inductive promise : Type :=
| Pending
| Fulfilled (v : value)
| Rejected (reason : value).

(** The [resolve] and [reject] functions of a promise: only the first
    call settles it. *)
Definition resolve (v : value) (p : promise) : promise :=
  match p with Pending => Fulfilled v | _ => p end.

Definition reject (reason : value) (p : promise) : promise :=
  match p with Pending => Rejected reason | _ => p end.

Definition settle_with (r : completion value) : promise :=
  match r with Normal v => Fulfilled v | Throw e => Rejected e end.

(** [p.then(onFulfilled)]: the calls the reaction makes and the promise
    [then] returns. *)
Definition Promise_then (p : promise) (onFulfilled : value -> effect value)
  : trace * promise :=
  match p with
  | Pending => ([], Pending)
  | Fulfilled v => let (t, r) := onFulfilled v in (t, settle_with r)
  | Rejected reason => ([], Rejected reason)
  end.

(** [p.catch(onRejected)] *)
Definition Promise_catch (p : promise) (onRejected : value -> effect value)
  : trace * promise :=
  match p with
  | Pending => ([], Pending)
  | Fulfilled v => ([], Fulfilled v)
  | Rejected reason => let (t, r) := onRejected reason in (t, settle_with r)
  end.

(** ** [BaseController] *)

Module BaseController.

Record t : Type := mk {
  priv_recipient : value;
  priv_sender : value;
  priv_payload : value;
  priv_onSuccessEventHandler : value;
  priv_onErrorEventHandler : value
}.

(** The constructor assigns four of the five fields; [#sender] stays
    [undefined]. *)
Definition new : t := mk VNull VUndefined VNull VNull VNull.

(** The setters that throw build the message of their [TypeError]
    first, from a template literal that names the value given or its
    constructor: the outcome is the error, unless evaluating the
    template throws before it. *)
Definition set_payload (names : func -> value) (env : client) (newValue : value)
    (this : t) : effect unit * t :=
  if negb (instanceof newValue "Payload") || loose_eq_null newValue
  then (_ ← constructor_name_text names env newValue; ethrow TypeError, this)
  else (eret tt,
        mk (priv_recipient this) (priv_sender this) newValue
           (priv_onSuccessEventHandler this) (priv_onErrorEventHandler this)).

Definition payload (this : t) : value := priv_payload this.

(** [PATTERN_URL.test(newValue) == false], reached for strings only. *)
Definition fails_PATTERN_URL (newValue : value) : bool :=
  negb (RegExp.test PATTERN_URL (ToString newValue)).

Definition set_recipient (env : client) (newValue : value) (this : t)
  : effect unit * t :=
  if loose_eq_null newValue
     || negb (String.eqb (typeof newValue) "string")
     || fails_PATTERN_URL newValue
  then (_ ← text env newValue; ethrow TypeError, this)
  else (eret tt,
        mk newValue (priv_sender this) (priv_payload this)
           (priv_onSuccessEventHandler this) (priv_onErrorEventHandler this)).

Definition recipient (this : t) : value := priv_recipient this.

Definition set_sender (env : client) (newValue : value) (this : t)
  : effect unit * t :=
  if loose_eq_null newValue
     || negb (String.eqb (typeof newValue) "string")
     || fails_PATTERN_URL newValue
  then (_ ← text env newValue; ethrow TypeError, this)
  else (eret tt,
        mk (priv_recipient this) newValue (priv_payload this)
           (priv_onSuccessEventHandler this) (priv_onErrorEventHandler this)).

Definition sender (this : t) : value := priv_sender this.

(** [(newValue != null && typeof newValue == "function") ? newValue : null] *)
Definition function_or_null (newValue : value) : value :=
  if negb (loose_eq_null newValue) && String.eqb (typeof newValue) "function"
  then newValue else VNull.

Definition set_onSuccessEventHandler (newValue : value) (this : t)
  : completion unit * t :=
  (Normal tt,
   mk (priv_recipient this) (priv_sender this) (priv_payload this)
      (function_or_null newValue) (priv_onErrorEventHandler this)).

Definition onSuccessEventHandler (this : t) : value :=
  priv_onSuccessEventHandler this.

Definition set_onErrorEventHandler (newValue : value) (this : t)
  : completion unit * t :=
  (Normal tt,
   mk (priv_recipient this) (priv_sender this) (priv_payload this)
      (priv_onSuccessEventHandler this) (function_or_null newValue)).

Definition onErrorEventHandler (this : t) : value :=
  priv_onErrorEventHandler this.

(** What one run of [execute] did: the request put on the wire (none
    when the host has no [XMLHttpRequest]), the promise [promisse] once
    the host has fired its events, the calls the two reactions made,
    and the promise at the end of the [then]/[catch] chain. *)
Record run : Type := mkRun {
  sent : option HttpRequest;
  promisse : promise;
  calls : trace;
  chained : promise
}.

Section Execute.

(** [execute] runs on [self], an instance of [BaseController] or of
    a class that extends it: [super] gives the fields [BaseController]
    declares, [methods] the methods of the library that can be
    called on [self], by class and name. *)
Context {Self : Type}.
Variable super : Self -> t.
Variable methods : string -> string -> option (Self -> list value -> effect value).
Variable env : client.

(** [self.#handler(args)] *)
Definition call_member (self : Self) (f : value) (args : list value)
  : effect value :=
  match f with
  | VFun (Method c m) =>
      match methods c m with
      | Some code => code self args
      | None => ethrow TypeError
      end
  | VFun g => call_function env g args
  | _ => ethrow TypeError
  end.

(** The body of the function given to [new Promise].  [opens] tells
    whether the host can parse the recipient as an address: when it
    cannot, [request.open] throws and nothing is sent. *)
Definition executor_at (opens : bool) (host : Host) (self : Self)
  : completion HttpRequest :=
  if window_XMLHttpRequest host then
    if opens then
      Normal (mkRequest "POST" (recipient (super self))
                [("Content-type", "application/json")]
                (JSON_stringify (payload (super self))))
    else Throw DOMException
  else Throw Error.

(** The executor in a host that can open the request. *)
Definition executor (host : Host) (self : Self) : completion HttpRequest :=
  executor_at true host self.

(** The listener [request.onreadystatechange]. *)
Definition onreadystatechange (self : Self) (request : XMLHttpRequest)
    (p : promise) : promise :=
  if readyState request =? 4 then
    if status request =? 200 then
      resolve (VObj ["Object"]
                 [("sender", sender (super self));
                  ("recipient", recipient (super self));
                  ("sent", payload (super self));
                  ("received", VStr (responseText request))]) p
    else
      reject (VObj ["Object"]
                [("errorCode", VNum (status request));
                 ("errorMessage", VStr (responseText request))]) p
  else p.

(** [resolve => { self.#onSuccessEventHandler(resolve) }] *)
Definition on_fulfilled (self : Self) (v : value) : effect value :=
  _ ← call_member self (priv_onSuccessEventHandler (super self)) [v];
  mret VUndefined.

(** [reject => { self.#onErrorEventHandler(reject) }] *)
Definition on_rejected (self : Self) (reason : value) : effect value :=
  _ ← call_member self (priv_onErrorEventHandler (super self)) [reason];
  mret VUndefined.

(** [execute()], followed to the end of the request.  The two guards
    and the executor run at the call, on the controller as it is then,
    [self].  The listener and the reactions run later, when the host
    fires its events or, for a promise the executor has rejected, when
    the script that called [execute] has come to its end; they read
    the fields of the controller as the client has left it by then,
    [later]. *)
Definition execute_at (opens : bool) (host : Host) (self later : Self)
  : completion run :=
  if loose_eq_null (recipient (super self)) then Throw Error
  else if loose_eq_null (payload (super self)) then Throw Error
  else
    let (request, created) :=
      match executor_at opens host self with
      | Normal r => (Some r, Pending)
      | Throw e => (None, Rejected e)
      end in
    let settled :=
      foldl (fun p ev => onreadystatechange later ev p) created
            (readystatechange host) in
    let (t1, p1) := Promise_then settled (on_fulfilled later) in
    let (t2, p2) := Promise_catch p1 (on_rejected later) in
    Normal (mkRun request settled (t1 ++ t2) p2).

(** The run in which the host can open the request and the client
    leaves the controller alone until the request is over, so that one
    [self] stands for both. *)
Definition execute (host : Host) (self : Self) : completion run :=
  execute_at true host self self.

End Execute.

(** A plain [BaseController] has no method that serves as a handler. *)
Definition no_methods : string -> string -> option (t -> list value -> effect value) :=
  fun _ _ => None.

End BaseController.

(** ** [DataController] *)

Module DataController.

Record t : Type := mk {
  super : BaseController.t;
  priv_viewController : value;
  priv_requestor : value
}.

(** [obj.name(args)] for a client object [obj], whose methods are the
    function-valued entries of its table. *)
Definition call_method (env : client) (obj : value) (name : string)
    (args : list value) : effect value :=
  match obj with
  | VObj _ props =>
      match assoc name props with
      | Some (VFun f) => call_function env f args
      | _ => ethrow TypeError
      end
  | _ => ethrow TypeError
  end.

Definition onSuccessEventHandler (env : client) (this : t) (response : value)
  : effect value :=
  _ ← call_method env (priv_requestor this) "onDataControllerCallbackEvent"
        [VObj ["Object"]
           [("status", Enumerator.get DataControllerStatus "Succeeded");
            ("payload", response)]];
  mret VUndefined.

Definition onErrorEventHandler (env : client) (this : t) (response : value)
  : effect value :=
  _ ← call_method env (priv_requestor this) "onDataControllerCallbackEvent"
        [VObj ["Object"]
           [("status", Enumerator.get DataControllerStatus "Failed");
            ("payload", response)]];
  mret VUndefined.

(** The methods of [DataController.prototype] that [execute] can reach
    through a handler field. *)
Definition methods (env : client) (cls name : string)
  : option (t -> list value -> effect value) :=
  if String.eqb cls "DataController" then
    if String.eqb name "onSuccessEventHandler"
    then Some (fun this args => onSuccessEventHandler env this (nth 0 args VUndefined))
    else if String.eqb name "onErrorEventHandler"
    then Some (fun this args => onErrorEventHandler env this (nth 0 args VUndefined))
    else None
  else None.

(** [new DataController(requestor)]: [super()], then the two handler
    fields are set, through the setters of [BaseController], to the
    methods of the same names, then [#requestor]. *)
Definition new (requestor : value) : t :=
  let base := BaseController.new in
  let base :=
    snd (BaseController.set_onSuccessEventHandler
           (VFun (Method "DataController" "onSuccessEventHandler")) base) in
  let base :=
    snd (BaseController.set_onErrorEventHandler
           (VFun (Method "DataController" "onErrorEventHandler")) base) in
  mk base VUndefined requestor.

Definition set_payload (names : func -> value) (env : client) (newValue : value)
    (this : t) : effect unit * t :=
  let (r, base) := BaseController.set_payload names env newValue (super this) in
  (r, mk base (priv_viewController this) (priv_requestor this)).

Definition payload (this : t) : value := BaseController.payload (super this).

Definition view (this : t) : value := priv_viewController this.

Definition set_recipient (env : client) (newValue : value) (this : t)
  : effect unit * t :=
  let (r, base) := BaseController.set_recipient env newValue (super this) in
  (r, mk base (priv_viewController this) (priv_requestor this)).

Definition execute (env : client) (host : Host) (this : t)
  : completion BaseController.run :=
  BaseController.execute super (methods env) env host this.

End DataController.

(** ** Reading the model *)

(** [v[key]] for an object or an array [v]. *)
Definition property (v : value) (key : string) : value :=
  match v with
  | VObj _ props => object_get props key
  | VArr elems => array_get elems key
  | _ => VUndefined
  end.

(** The outcome of a method that builds the message of the error [e]
    and throws it: the calls that building the message makes, and what
    it throws when it throws, or else [e]. *)
Definition throws_after {A : Type} (message : effect A) (e : value) : effect unit :=
  (fst message,
   match snd message with
   | Normal _ => Throw e
   | Throw x => Throw x
   end).

(** Whether the conversion of [v] to a string can call out: it can for
    objects and arrays only. *)
Definition converts_quietly (v : value) : bool :=
  match v with
  | VArr _ | VObj _ _ => false
  | _ => true
  end.

(** The first [readystatechange] event of [host] that shows the request
    complete is [ev]. *)
Definition completes (host : Host) (ev : XMLHttpRequest) : Prop :=
  ∃ pre post,
    readystatechange host = pre ++ ev :: post
    ∧ Forall (fun e => readyState e ≠ 4) pre
    ∧ readyState ev = 4.

(** The two objects [execute] hands to its reactions. *)
Definition response_of (c : BaseController.t) (ev : XMLHttpRequest) : value :=
  VObj ["Object"]
    [("sender", BaseController.sender c);
     ("recipient", BaseController.recipient c);
     ("sent", BaseController.payload c);
     ("received", VStr (responseText ev))].

Definition failure_of (ev : XMLHttpRequest) : value :=
  VObj ["Object"]
    [("errorCode", VNum (status ev)); ("errorMessage", VStr (responseText ev))].

(** The public operations of a [BaseController], as the steps of a
    transition system over its private fields. *)
Inductive operation : Type :=
| SetPayload (names : func -> value) (env : client) (v : value)
| SetRecipient (env : client) (v : value)
| SetSender (env : client) (v : value)
| SetOnSuccessEventHandler (v : value)
| SetOnErrorEventHandler (v : value)
| Execute (env : client) (host : Host).

Definition step (op : operation) (c : BaseController.t)
  : effect unit * BaseController.t :=
  match op with
  | SetPayload names env v => BaseController.set_payload names env v c
  | SetRecipient env v => BaseController.set_recipient env v c
  | SetSender env v => BaseController.set_sender env v c
  | SetOnSuccessEventHandler v =>
      (lift (fst (BaseController.set_onSuccessEventHandler v c)),
       snd (BaseController.set_onSuccessEventHandler v c))
  | SetOnErrorEventHandler v =>
      (lift (fst (BaseController.set_onErrorEventHandler v c)),
       snd (BaseController.set_onErrorEventHandler v c))
  | Execute env host =>
      match BaseController.execute id BaseController.no_methods env host c with
      | Normal r => ((BaseController.calls r, Normal tt), c)
      | Throw e => (ethrow e, c)
      end
  end.

(** The state after a sequence of operations, whether they throw or not. *)
Definition steps (ops : list operation) (c : BaseController.t) : BaseController.t :=
  foldl (fun c op => snd (step op c)) c ops.

(** A request was made: the host has [XMLHttpRequest] and [execute]
    got past its two guards. *)
Definition requested {Self : Type} (super : Self -> BaseController.t)
    (host : Host) (self : Self) : Prop :=
  window_XMLHttpRequest host = true
  ∧ loose_eq_null (BaseController.recipient (super self)) = false
  ∧ loose_eq_null (BaseController.payload (super self)) = false.

(** Whether the function object held in [handler] was called in [t]. *)
Definition handler_called (handler : value) (t : trace) : bool :=
  match handler with
  | VFun f => existsb (fun c => func_eqb (callee c) f) t
  | _ => false
  end.

(** One entry of a payload: [{header: {requestor, time}, body}]. *)
Definition entry (requestor : value) (time : Z) (body : value) : value :=
  VObj ["Object"]
    [("header", VObj ["Object"] [("requestor", requestor); ("time", VNum time)]);
     ("body", body)].

(** Whether a property key starts like the decimal text of an integer. *)
Definition numeric_head (key : string) : bool :=
  match key with
  | String c _ => existsb (Ascii.eqb c) (String.list_ascii_of_string "0123456789-")
  | EmptyString => false
  end.

(** The invariant of the two handler fields. *)
Definition null_or_function (v : value) : Prop :=
  v = VNull ∨ typeof v = "function".

Definition handlers_wellformed (c : BaseController.t) : Prop :=
  null_or_function (BaseController.onSuccessEventHandler c)
  ∧ null_or_function (BaseController.onErrorEventHandler c).

(** ** Sample objects *)

Module Sample.

(** A client whose functions all return. *)
Definition quiet : client := fun _ _ => Normal VUndefined.

(** A client whose function 1 throws. *)
Definition faulty : client :=
  fun id _ => if Nat.eqb id 1 then Throw (VStr "oops") else Normal VUndefined.

(** [new Form()], for a client class [Form] with the callback method
    a [DataController] looks for. *)
Definition form : value :=
  VObj ["Form"; "Object"] [("onDataControllerCallbackEvent", VFun (Closure 7))].

Definition payload : Payload.t :=
  Payload.addContent 1604275200000 (VObj ["Object"] [("name", VStr "Ada")])
    (Payload.mk [] (VStr "Form")).

(** A controller ready to run: recipient, payload and both handlers set. *)
Definition controller : BaseController.t :=
  BaseController.mk (VStr "https://www.example.com/save") VUndefined
    (Payload.as_value payload) (VFun (Closure 1)) (VFun (Closure 2)).

(** The same without handlers: both fields are as the constructor left
    them. *)
Definition bare_controller : BaseController.t :=
  snd (BaseController.set_payload declared_name quiet (Payload.as_value payload)
         (snd (BaseController.set_recipient quiet (VStr "https://www.example.com/save")
                 BaseController.new))).

Definition ok : XMLHttpRequest := mkXHR 4 200 "saved".
Definition not_found : XMLHttpRequest := mkXHR 4 404 "no such form".

(** A host that reports progress, then completion. *)
Definition host (last : XMLHttpRequest) : Host :=
  mkHost true [mkXHR 1 0 ""; mkXHR 2 (status last) ""; mkXHR 3 (status last) ""; last].

Definition item : value :=
  VObj ["BaseItem"; "Object"]
    [("#content", VStr "a"); ("#parent", VStr "BaseItem");
     ("#contentType", VStr "String")].

Definition other_item : value :=
  VObj ["BaseItem"; "Object"]
    [("#content", VNum 7); ("#parent", VStr "BaseItem");
     ("#contentType", VStr "Number")].

(** The list after [push(item); push(other_item); push(item)]. *)
Definition three : BaseItemList.t :=
  snd (BaseItemList.push item
         (snd (BaseItemList.push other_item
                 (snd (BaseItemList.push item BaseItemList.new))))).

End Sample.

(** ** [DataRow] *)

(** [Object.entries(v).length]: the number of enumerable own properties
    with a string key; [null] and [undefined] have none to ask for. *)
Definition Object_entries_length (v : value) : completion Z :=
  match v with
  | VUndefined | VNull => Throw TypeError
  | VObj _ props =>
      Normal (Z.of_nat (List.length (filter (fun p => private_name (fst p) = false) props)))
  | VArr elems => Normal (Z.of_nat (List.length elems))
  | VStr s => Normal (Z.of_nat (String.length s))
  | VBool _ | VNum _ | VFun _ => Normal 0
  end.

Module DataRow.

(** A [DataRow] is a [BaseItemList] with a private [#errorLog], which
    is [undefined] until [validate] runs. *)
Record t : Type := mk { super : BaseItemList.t; priv_errorLog : value }.

Definition new : t := mk BaseItemList.new VUndefined.

(** The body of [getFields] starts with the statement [url], a name
    bound nowhere, so evaluating it throws before [return] is reached. *)
Definition getFields (this : t) : completion (gmap Z value) :=
  Throw BaseItemList.ReferenceError.

(** [push(...fields)]: [fields] is the array of the arguments, so the
    first guard never fires; the array goes into the list as one entry,
    through the getters and the setter of [BaseItemList], the length
    growing as the numbers of the host do.  The loop over the
    arguments stops at the first that is no instance of [DataField]:
    the message of its [TypeError] quotes the name of the constructor
    that the prototype of that argument holds, which is read and
    converted to a string before the error is thrown. *)
Definition push (names : func -> value) (env : client) (fields : list value)
    (this : t) : effect unit * t :=
  if (Z.of_nat (List.length fields) =? 0) then (ethrow Error, this)
  else
    match List.find (fun value => negb (instanceof value "DataField")) fields with
    | Some value => (_ ← prototype_name_text names env value; ethrow TypeError, this)
    | None =>
        let list := super this in
        let list :=
          BaseItemList.mk (BaseItemList.priv_length list)
            (<[BaseItemList.length list := VArr fields]>
               (BaseItemList.priv_items list)) in
        let list :=
          BaseItemList.set_length (round53 (BaseItemList.length list + 1)) list in
        (eret tt, mk list (priv_errorLog this))
    end.

(** [{count: n, entries: e}] *)
Definition errorLog (count : Z) (entries : value) : value :=
  VObj ["Object"] [("count", VNum count); ("entries", entries)].

(** [validate(callback)]: the log is reset first, then the callback is
    called without arguments, then the log is filled from what it
    returned. *)
Definition validate (env : client) (callback : value) (this : t)
  : effect unit * t :=
  let this0 := mk (super this) (errorLog 0 (VObj ["Object"] [])) in
  let called :=
    match callback with
    | VFun f => call_function env f []
    | _ => ethrow TypeError
    end in
  match called with
  | (calls, Throw e) => ((calls, Throw e), this0)
  | (calls, Normal result) =>
      match Object_entries_length result with
      | Throw e => ((calls, Throw e), this0)
      | Normal n => ((calls, Normal tt), mk (super this) (errorLog n result))
      end
  end.

Definition getErrors (this : t) : value := priv_errorLog this.

(** [item], inherited. *)
Definition item (index : Z) (this : t) : completion value :=
  BaseItemList64.item index (super this).

End DataRow.

(** ** [Carrousel] *)

(** [s.split(sep)] for a separator of one character. *)
Fixpoint String_split (sep : ascii) (s : string) : list string :=
  match s with
  | EmptyString => [""]
  | String c s' =>
      if Ascii.eqb c sep then "" :: String_split sep s'
      else
        match String_split sep s' with
        | first :: rest => String c first :: rest
        | [] => [String c ""]
        end
  end.

Module Carrousel.

(** The element, as far as its methods read and write it: the two
    fields they keep, the markup [connectedCallback] installs and the
    background image of the [.image-container] inside it. *)
Record t : Type := mk {
  _photoIndex : Z;
  _photos : list string;
  innerHTML : string;
  backgroundImage : string
}.

(** [getAttribute(name)] gives a string, or [null] without the attribute. *)
Definition attribute_text (attribute : option string) : string :=
  match attribute with
  | Some s => s
  | None => "null"
  end.

(** [this._photos[this._photoIndex]], turned into a string. *)
Definition photo_text (photos : list string) (index : Z) : string :=
  if index <? 0 then "undefined"
  else match photos !! Z.to_nat index with
       | Some photo => photo
       | None => "undefined"
       end.

Definition showPhoto (this : t) : t :=
  mk (_photoIndex this) (_photos this) (innerHTML this)
     ("url(" +:+ photo_text (_photos this) (_photoIndex this) +:+ ")").

Definition comma : ascii := Ascii.ascii_of_nat 44.

(** [s] between double quotes. *)
Definition quoted (s : string) : string :=
  String (Ascii.ascii_of_nat 34) (s +:+ String (Ascii.ascii_of_nat 34) EmptyString).

(** The markup [connectedCallback] assigns to [innerHTML]. *)
Definition markup (title author : option string) : string :=
  "<h2>" +:+ attribute_text title +:+ "</h2>"
  +:+ "<h4>by " +:+ attribute_text author +:+ "</h4>"
  +:+ "<div class=" +:+ quoted "image-container" +:+ "></div>"
  +:+ "<button class=" +:+ quoted "back" +:+ ">&lt</button>"
  +:+ "<button class=" +:+ quoted "forward" +:+ ">&gt</button>".

(** [connectedCallback()], given the attributes [photos], [title] and
    [author] of the element.  The host parses the markup, in which the
    title and the author stand as they are, and [finds] tells whether
    [querySelector] then gives an element for a selector: the two
    buttons are looked up to be listened to, and the image container
    by [showPhoto]; a lookup that gives [null] makes the call on it
    throw a [TypeError]. *)
Definition connectedCallback (finds : string -> string -> bool)
    (photos title author : option string) : completion t :=
  match photos with
  | None => Throw TypeError
  | Some s =>
      let this := mk 0 (String_split comma s) (markup title author) EmptyString in
      if negb (finds (innerHTML this) "button.back") then Throw TypeError
      else if negb (finds (innerHTML this) "button.forward") then Throw TypeError
      else if negb (finds (innerHTML this) ".image-container") then Throw TypeError
      else Normal (showPhoto this)
  end.

Definition onBackButtonClick (this : t) : t :=
  let index := _photoIndex this - 1 in
  let index := if index <? 0 then Z.of_nat (List.length (_photos this)) - 1 else index in
  showPhoto (mk index (_photos this) (innerHTML this) (backgroundImage this)).

Definition onForwardButtonClick (this : t) : t :=
  let index := _photoIndex this + 1 in
  let index := if index >=? Z.of_nat (List.length (_photos this)) then 0 else index in
  showPhoto (mk index (_photos this) (innerHTML this) (backgroundImage this)).

End Carrousel.

(** ** The classes as transition systems *)

(** The methods of a [BaseItemList] that change it, and the setter of
    [length], as steps; a step that throws leaves the list as it was. *)
Inductive list_operation : Type :=
| Push (obj : value)
| Pop
| Delete (index : Z)
| Replace (index : Z) (obj : value)
| Clear
| SetLength (newValue : Z).

Definition list_step (op : list_operation) (L : BaseItemList.t) : BaseItemList.t :=
  match op with
  | Push obj => snd (BaseItemList.push obj L)
  | Pop => BaseItemList.pop L
  | Delete index => snd (BaseItemList.delete index L)
  | Replace index obj => snd (BaseItemList.replace index obj L)
  | Clear => BaseItemList.clear L
  | SetLength newValue => BaseItemList.set_length newValue L
  end.

Definition list_steps (ops : list list_operation) (L : BaseItemList.t)
  : BaseItemList.t :=
  foldl (fun L op => list_step op L) L ops.

(** The same steps with the arithmetic of the host, in a program with
    the names [names] and the functions [env]. *)
Definition list_step64 (names : func -> value) (env : client) (op : list_operation)
    (L : BaseItemList64.t) : BaseItemList64.t :=
  match op with
  | Push obj => snd (BaseItemList64.push names env obj L)
  | Pop => BaseItemList64.pop L
  | Delete index => snd (BaseItemList64.delete index L)
  | Replace index obj => snd (BaseItemList64.replace index obj L)
  | Clear => BaseItemList.clear L
  | SetLength newValue => BaseItemList.set_length newValue L
  end.

Definition list_steps64 (names : func -> value) (env : client)
    (ops : list list_operation) (L : BaseItemList64.t) : BaseItemList64.t :=
  foldl (fun L op => list_step64 names env op L) L ops.

(** The operations of a list used as a stack with replacement. *)
Definition stack_operation (op : list_operation) : bool :=
  match op with
  | Delete _ | SetLength _ => false
  | _ => true
  end.

(** Every entry of the array is an instance of [BaseItem]. *)
Definition holds_items (L : BaseItemList.t) : Prop :=
  ∀ j x, BaseItemList.items L !! j = Some x → instanceof x "BaseItem" = true.

(** The entries of the array are exactly at the indices from 0 to
    [length - 1]. *)
Definition packed (L : BaseItemList.t) : Prop :=
  0 ≤ BaseItemList.length L
  ∧ ∀ j, is_Some (BaseItemList.items L !! j) ↔ 0 ≤ j < BaseItemList.length L.

(** A field that holds an address: still as the constructor left it, or
    a string that matches [PATTERN_URL]. *)
Definition address_or (unset v : value) : Prop :=
  v = unset ∨ ∃ s, v = VStr s ∧ RegExp.test PATTERN_URL s = true.

Definition fields_wellformed (c : BaseController.t) : Prop :=
  address_or VNull (BaseController.recipient c)
  ∧ address_or VUndefined (BaseController.sender c)
  ∧ (BaseController.payload c = VNull
     ∨ instanceof (BaseController.payload c) "Payload" = true).


(** Whether [requestor] has the method a [DataController] calls. *)
Definition has_callback (requestor : value) : bool :=
  match requestor with
  | VObj _ props =>
      match assoc "onDataControllerCallbackEvent" props with
      | Some (VFun _) => true
      | _ => false
      end
  | _ => false
  end.

(** The two buttons of a [Carrousel]. *)
Inductive click : Type := Back | Forward.

Definition clicked (c : Carrousel.t) (k : click) : Carrousel.t :=
  match k with
  | Back => Carrousel.onBackButtonClick c
  | Forward => Carrousel.onForwardButtonClick c
  end.

(** The index points at a photo, and that photo is the one shown. *)
Definition shows_photo (c : Carrousel.t) : Prop :=
  0 ≤ Carrousel._photoIndex c < Z.of_nat (List.length (Carrousel._photos c))
  ∧ ∃ photo,
      Carrousel._photos c !! Z.to_nat (Carrousel._photoIndex c) = Some photo
      ∧ Carrousel.backgroundImage c = "url(" +:+ photo +:+ ")".

(** Further sample objects. *)
Module Sample2.

Definition field : value :=
  DataField.as_value
    (DataField.mk (VStr "age") (VNum 2) (VNum 41) (VBool false) (VFun (Closure 3))).

Definition other_field : value :=
  DataField.as_value
    (DataField.mk (VStr "name") (VNum 1) (VStr "Ada") (VBool true) (VFun (Closure 3))).


Definition carrousel : Carrousel.t :=
  Carrousel.showPhoto
    (Carrousel.mk 0 ["a.png"; "b.png"; "c.png"] EmptyString EmptyString).

End Sample2.

(* ===================================================================== *)
(** * Part 2: the theorems *)
(* ===================================================================== *)

(** Unfolds the sequencing of calls. *)
Ltac unfold_effect :=
  unfold mbind, mret, effect_bind, effect_ret, ebind, eret, ethrow.

(** The sample items are what the constructor of [BaseItem] builds. *)
Lemma sample_items_constructed :
  BaseItem.new [] (VStr "a") = Normal Sample.item
  ∧ BaseItem.new [] (VNum 7) = Normal Sample.other_item.
Proof. split; reflexivity. Qed.

(** ** Conversions *)

(** A conversion that ends in a thrown error, in terms of its parts. *)
Lemma throw_after_message {A : Type} (message : effect A) (e : value) :
  (_ ← message; ethrow e) = throws_after message e.
Proof. destruct message as [t [a|x]]; cbn; [now rewrite app_nil_r|reflexivity]. Qed.

Lemma text_throws_after (env : client) (v : value) (e : value) :
  (_ ← text env v; ethrow e) = throws_after (ToString_client env v) e.
Proof.
  rewrite throw_after_message. unfold text, throws_after.
  destruct (ToString_client env v) as [t [a|x]]; cbn; [now rewrite app_nil_r|reflexivity].
Qed.

(** Values that are no objects are converted without a call. *)
Lemma ToString_client_primitive (env : client) (v : value) :
  typeof v ≠ "object" → ToString_client env v = ([], Normal (ToString v)).
Proof. destruct v; cbn; intros H; try reflexivity; now destruct H. Qed.

(** An effect that calls nothing and returns passes its value on. *)
Lemma bind_quiet {A B : Type} (a : A) (k : A -> effect B) :
  (([], Normal a) : effect A) ≫= k = k a.
Proof. unfold_effect. now destruct (k a). Qed.

Lemma ToString_client_quiet (env : client) (v : value) :
  converts_quietly v = true → ToString_client env v = ([], Normal (ToString v)).
Proof. now destruct v. Qed.

(** Reading the name of a constructor throws nothing but a [TypeError]. *)
Lemma reads_name_throws (names : func -> value) (v : value) (e : value) :
  reads_name names v = Throw e → e = TypeError.
Proof.
  unfold reads_name, Get_constructor.
  destruct v as [ | |b|n|s|f|elems|chain props]; cbn; try congruence.
  destruct (assoc "constructor" props) as [c|].
  - destruct c as [ | |b|n|s|f|elems|chain' props']; cbn; try congruence.
    destruct (assoc "name" props'); congruence.
  - destruct chain; cbn; congruence.
Qed.

(** Naming the constructor of a value in a message calls nothing when
    the name cannot be read, and when what is read is neither an object
    nor an array: the message is built, or the read throws a
    [TypeError]. *)
Lemma constructor_name_text_quiet (names : func -> value) (env : client) (v : value) :
  (∀ n, reads_name names v = Normal n → converts_quietly n = true) →
  throws_after (constructor_name_text names env v) TypeError = ([], Throw TypeError).
Proof.
  intros Hname. unfold constructor_name_text, lift.
  destruct (reads_name names v) as [n|e] eqn:Hreads.
  - rewrite bind_quiet, (ToString_client_quiet env n (Hname n eq_refl)). reflexivity.
  - now rewrite (reads_name_throws names v e Hreads).
Qed.

(** ** Promises and the [readystatechange] listener *)

Section Listener.

Context {Self : Type}.
Variable super : Self -> BaseController.t.
Variable self : Self.

Let listen := fun p ev => BaseController.onreadystatechange super self ev p.

Lemma settled_stays (evs : list XMLHttpRequest) (p : promise) :
  p ≠ Pending → foldl listen p evs = p.
Proof.
  revert p. induction evs as [|ev evs IH]; intros p Hp; [reflexivity|].
  cbn [foldl]. replace (listen p ev) with p; [now apply IH|].
  unfold listen, BaseController.onreadystatechange.
  destruct p; [congruence| |]; repeat case_match; reflexivity.
Qed.

Lemma pending_while_incomplete (pre : list XMLHttpRequest) :
  Forall (fun e => readyState e ≠ 4) pre → foldl listen Pending pre = Pending.
Proof.
  induction 1 as [|ev pre Hev _ IH]; [reflexivity|].
  cbn [foldl]. replace (listen Pending ev) with Pending; [exact IH|].
  unfold listen, BaseController.onreadystatechange.
  apply Z.eqb_neq in Hev. now rewrite Hev.
Qed.

Lemma listener_settles (ev : XMLHttpRequest) :
  readyState ev = 4 →
  listen Pending ev =
    if status ev =? 200 then Fulfilled (response_of (super self) ev)
    else Rejected (failure_of ev).
Proof.
  intros Hev. unfold listen, BaseController.onreadystatechange.
  rewrite Hev. cbn. now destruct (status ev =? 200).
Qed.

(** The promise of [execute] is settled by the first completed event,
    and by it alone. *)
Lemma first_completion_settles (host : Host) (ev : XMLHttpRequest) :
  completes host ev →
  foldl listen Pending (readystatechange host) =
    if status ev =? 200 then Fulfilled (response_of (super self) ev)
    else Rejected (failure_of ev).
Proof.
  intros (pre & post & -> & Hpre & Hev).
  rewrite foldl_app, (pending_while_incomplete pre Hpre). cbn [foldl].
  rewrite (listener_settles ev Hev).
  apply settled_stays. now destruct (status ev =? 200).
Qed.

End Listener.

(** ** [BaseController.execute] *)

Section ExecuteFacts.

Context {Self : Type}.
Variable super : Self -> BaseController.t.
Variable methods : string -> string -> option (Self -> list value -> effect value).
Variable env : client.

Let execute := BaseController.execute super methods env.
Let execute_at := BaseController.execute_at super methods env.
Let on_fulfilled := BaseController.on_fulfilled super methods env.
Let on_rejected := BaseController.on_rejected super methods env.

(** What [execute] does with a completed request, reaction by reaction:
    the request is made from the controller as it is at the call, the
    promise is settled and the reactions run on the controller as it is
    at the completion. *)
Lemma execute_at_completed (host : Host) (self later : Self) (ev : XMLHttpRequest) :
  requested super host self →
  completes host ev →
  let settled :=
    if status ev =? 200 then Fulfilled (response_of (super later) ev)
    else Rejected (failure_of ev) in
  let first := Promise_then settled (on_fulfilled later) in
  let second := Promise_catch (snd first) (on_rejected later) in
  execute_at true host self later =
    Normal (BaseController.mkRun
              (Some (mkRequest "POST" (BaseController.recipient (super self))
                       [("Content-type", "application/json")]
                       (JSON_stringify (BaseController.payload (super self)))))
              settled (fst first ++ fst second) (snd second)).
Proof.
  intros (Hxhr & Hrecipient & Hpayload) Hev. cbn zeta.
  unfold execute_at, BaseController.execute_at, BaseController.executor_at.
  rewrite Hrecipient, Hpayload, Hxhr.
  rewrite (first_completion_settles super later host ev Hev).
  fold on_fulfilled on_rejected.
  destruct (Promise_then _ _) as [t1 p1]. cbn [fst snd].
  now destruct (Promise_catch p1 _) as [t2 p2].
Qed.

(** The same when the client leaves the controller alone meanwhile. *)
Lemma execute_completed (host : Host) (self : Self) (ev : XMLHttpRequest) :
  requested super host self →
  completes host ev →
  let settled :=
    if status ev =? 200 then Fulfilled (response_of (super self) ev)
    else Rejected (failure_of ev) in
  let first := Promise_then settled (on_fulfilled self) in
  let second := Promise_catch (snd first) (on_rejected self) in
  execute host self =
    Normal (BaseController.mkRun
              (Some (mkRequest "POST" (BaseController.recipient (super self))
                       [("Content-type", "application/json")]
                       (JSON_stringify (BaseController.payload (super self)))))
              settled (fst first ++ fst second) (snd second)).
Proof. intros Hreq Hev. exact (execute_at_completed host self self ev Hreq Hev). Qed.

Lemma call_closure (self : Self) (f : nat) (args : list value) :
  BaseController.call_member methods env self (VFun (Closure f)) args
  = ([Call (Closure f) args], env f args).
Proof. reflexivity. Qed.

(** The calls of a run, when both handlers are functions of the client. *)
Lemma calls_of_completed (host : Host) (self : Self) (ev : XMLHttpRequest)
    (s e : nat) :
  requested super host self →
  completes host ev →
  BaseController.priv_onSuccessEventHandler (super self) = VFun (Closure s) →
  BaseController.priv_onErrorEventHandler (super self) = VFun (Closure e) →
  ∃ r, execute host self = Normal r
    ∧ BaseController.calls r =
        if status ev =? 200 then
          Call (Closure s) [response_of (super self) ev]
          :: match env s [response_of (super self) ev] with
             | Normal _ => []
             | Throw x => [Call (Closure e) [x]]
             end
        else [Call (Closure e) [failure_of ev]].
Proof.
  intros Hreq Hev Hs He. eexists. split; [exact (execute_completed host self ev Hreq Hev)|].
  cbn [BaseController.calls].
  unfold on_fulfilled, on_rejected, BaseController.on_fulfilled,
    BaseController.on_rejected. unfold_effect.
  rewrite Hs, He.
  destruct (status ev =? 200); cbn [Promise_then Promise_catch fst snd];
    rewrite !call_closure.
  - destruct (env s _) as [w|x]; cbn; [reflexivity|].
    now destruct (env e [x]).
  - now destruct (env e _).
Qed.

(** C2. When a request completes with a status other than 200, the
    promise of [execute] is rejected with exactly the object
    [{errorCode: status, errorMessage: responseText}], built from the
    status code and the raw response text; the error handler, when it
    is a function of the client, is called once with that object, and
    no other call is made. *)
Theorem execute_error_path (host : Host) (self : Self) (ev : XMLHttpRequest) :
  requested super host self →
  completes host ev →
  status ev ≠ 200 →
  let failure :=
    VObj ["Object"]
      [("errorCode", VNum (status ev));
       ("errorMessage", VStr (responseText ev))] in
  ∃ r, execute host self = Normal r
    ∧ BaseController.promisse r = Rejected failure
    ∧ ∀ f, BaseController.priv_onErrorEventHandler (super self) = VFun (Closure f) →
           BaseController.calls r = [Call (Closure f) [failure]].
Proof.
  intros Hreq Hev Hstatus failure. apply Z.eqb_neq in Hstatus.
  eexists. split; [exact (execute_completed host self ev Hreq Hev)|].
  rewrite Hstatus. split; [reflexivity|]. intros f Hf.
  cbn [BaseController.calls Promise_then fst snd Promise_catch app].
  unfold on_rejected, BaseController.on_rejected. unfold_effect.
  rewrite Hf, call_closure. now destruct (env f _).
Qed.

(** C3, as the code has it.  When a request completes with status
    200, the promise of [execute] is fulfilled with an object whose
    [received] field is the raw response text and whose [sent] field is
    the payload the controller holds at that moment: the listener reads
    [self.payload] when the request completes, so [sent] is the payload
    [execute] was called with exactly when the client has assigned no
    other payload in between.  The success handler read at that moment,
    when it is a function of the client, is called first, with that
    object. *)
Theorem execute_success_path (host : Host) (self later : Self)
    (ev : XMLHttpRequest) :
  requested super host self →
  completes host ev →
  status ev = 200 →
  ∃ r response,
    execute_at true host self later = Normal r
    ∧ BaseController.promisse r = Fulfilled response
    ∧ property response "sent" = BaseController.payload (super later)
    ∧ property response "received" = VStr (responseText ev)
    ∧ (property response "sent" = BaseController.payload (super self)
       ↔ BaseController.payload (super later) = BaseController.payload (super self))
    ∧ ∀ f, BaseController.priv_onSuccessEventHandler (super later) = VFun (Closure f) →
           ∃ rest, BaseController.calls r = Call (Closure f) [response] :: rest.
Proof.
  intros Hreq Hev Hstatus.
  eexists _, (response_of (super later) ev).
  split; [exact (execute_at_completed host self later ev Hreq Hev)|].
  rewrite Hstatus. cbn [Z.eqb Pos.eqb].
  split; [reflexivity|]. split; [reflexivity|]. split; [reflexivity|].
  split; [reflexivity|]. intros f Hf.
  cbn [BaseController.calls Promise_then fst snd].
  unfold on_fulfilled, BaseController.on_fulfilled. unfold_effect.
  rewrite Hf, call_closure.
  destruct (env f _); cbn; eauto.
Qed.

(** C4, as the code has it.  A completed request settles the promise
    of [execute] one way only: it is fulfilled when the status is 200
    and rejected otherwise.  With both handlers functions of the
    client, a status other than 200 calls the error handler alone; a
    status of 200 calls the success handler, and the error handler
    after it exactly when the success handler throws, with the value
    thrown.  So a success handler that returns makes every completion
    call exactly one handler. *)
Theorem execute_one_settlement (host : Host) (self : Self) (ev : XMLHttpRequest)
    (s e : nat) :
  requested super host self →
  completes host ev →
  BaseController.priv_onSuccessEventHandler (super self) = VFun (Closure s) →
  BaseController.priv_onErrorEventHandler (super self) = VFun (Closure e) →
  ∃ r, execute host self = Normal r
    ∧ (status ev = 200 ∧ (∃ v, BaseController.promisse r = Fulfilled v)
       ∨ status ev ≠ 200 ∧ (∃ v, BaseController.promisse r = Rejected v))
    ∧ (status ev ≠ 200 →
       BaseController.calls r = [Call (Closure e) [failure_of ev]])
    ∧ (status ev = 200 →
       ∀ w, env s [response_of (super self) ev] = Normal w →
            BaseController.calls r = [Call (Closure s) [response_of (super self) ev]])
    ∧ (status ev = 200 →
       ∀ x, env s [response_of (super self) ev] = Throw x →
            BaseController.calls r =
              [Call (Closure s) [response_of (super self) ev]; Call (Closure e) [x]]).
Proof.
  intros Hreq Hev Hs He.
  destruct (calls_of_completed host self ev s e Hreq Hev Hs He) as (r & Hr & Hcalls).
  exists r. split; [exact Hr|].
  pose proof (execute_completed host self ev Hreq Hev) as Hrun. cbn zeta in Hrun.
  rewrite Hrun in Hr. injection Hr as <-. cbn [BaseController.promisse].
  cbn [BaseController.calls] in Hcalls.
  destruct (Z.eqb_spec (status ev) 200) as [H200|H200].
  - split; [left; eauto|]. split; [congruence|].
    split; intros _ y Hy; rewrite Hy in Hcalls; exact Hcalls.
  - split; [right; eauto|]. split; [intros _; exact Hcalls|].
    split; congruence.
Qed.

End ExecuteFacts.

(** The sample host completes with its last event. *)
Lemma sample_host_completes (last : XMLHttpRequest) :
  readyState last = 4 → completes (Sample.host last) last.
Proof.
  intros Hlast.
  exists [mkXHR 1 0 ""; mkXHR 2 (status last) ""; mkXHR 3 (status last) ""], [].
  split; [reflexivity|]. split; [|exact Hlast].
  repeat constructor; cbn; lia.
Defined.

Lemma sample_requested (last : XMLHttpRequest) :
  requested id (Sample.host last) Sample.controller.
Proof. repeat split. Defined.

Lemma execute_error_path_witness :
  requested id (Sample.host Sample.not_found) Sample.controller
  ∧ completes (Sample.host Sample.not_found) Sample.not_found
  ∧ status Sample.not_found ≠ 200
  ∧ ∃ r, BaseController.execute id BaseController.no_methods Sample.quiet
           (Sample.host Sample.not_found) Sample.controller = Normal r
      ∧ BaseController.promisse r =
          Rejected (VObj ["Object"]
                      [("errorCode", VNum 404);
                       ("errorMessage", VStr "no such form")])
      ∧ ∀ f, VFun (Closure 2) = VFun (Closure f) →
             BaseController.calls r =
               [Call (Closure f)
                  [VObj ["Object"]
                     [("errorCode", VNum 404);
                      ("errorMessage", VStr "no such form")]]].
Proof.
  assert (Hreq := sample_requested Sample.not_found).
  assert (Hev : completes (Sample.host Sample.not_found) Sample.not_found)
    by (apply sample_host_completes; reflexivity).
  assert (Hstatus : status Sample.not_found ≠ 200) by (cbn; lia).
  repeat split; try assumption.
  exact (execute_error_path id BaseController.no_methods Sample.quiet
           (Sample.host Sample.not_found) Sample.controller Sample.not_found
           Hreq Hev Hstatus).
Defined.

Lemma execute_success_path_witness :
  requested id (Sample.host Sample.ok) Sample.controller
  ∧ completes (Sample.host Sample.ok) Sample.ok
  ∧ status Sample.ok = 200
  ∧ ∃ r response,
      BaseController.execute_at id BaseController.no_methods Sample.quiet true
        (Sample.host Sample.ok) Sample.controller Sample.controller = Normal r
      ∧ BaseController.promisse r = Fulfilled response
      ∧ property response "sent" = Payload.as_value Sample.payload
      ∧ property response "received" = VStr "saved"
      ∧ (property response "sent" = Payload.as_value Sample.payload
         ↔ Payload.as_value Sample.payload = Payload.as_value Sample.payload)
      ∧ ∀ f, VFun (Closure 1) = VFun (Closure f) →
             ∃ rest, BaseController.calls r = Call (Closure f) [response] :: rest.
Proof.
  assert (Hreq := sample_requested Sample.ok).
  assert (Hev : completes (Sample.host Sample.ok) Sample.ok)
    by (apply sample_host_completes; reflexivity).
  repeat split; try assumption.
  exact (execute_success_path id BaseController.no_methods Sample.quiet
           (Sample.host Sample.ok) Sample.controller Sample.controller Sample.ok
           Hreq Hev eq_refl).
Defined.

(** C3, as the claim states it, fails when the client assigns another
    payload after calling [execute] and before the request completes:
    the object the promise is fulfilled with, and the success handler
    is called with, then carries the new payload under [sent], not the
    one the request was made for. *)
Lemma execute_sends_back_the_later_payload :
  let other := Payload.as_value (Payload.mk [] (VStr "Report")) in
  let later := snd (BaseController.set_payload declared_name Sample.quiet other Sample.controller) in
  requested id (Sample.host Sample.ok) Sample.controller
  ∧ completes (Sample.host Sample.ok) Sample.ok
  ∧ status Sample.ok = 200
  ∧ ∃ r response,
      BaseController.execute_at id BaseController.no_methods Sample.quiet true
        (Sample.host Sample.ok) Sample.controller later = Normal r
      ∧ BaseController.promisse r = Fulfilled response
      ∧ BaseController.calls r = [Call (Closure 1) [response]]
      ∧ property response "sent" = other
      ∧ property response "sent" ≠ BaseController.payload Sample.controller.
Proof.
  cbn zeta. split; [apply sample_requested|].
  split; [apply sample_host_completes; reflexivity|]. split; [reflexivity|].
  eexists _, _. split; [vm_compute; reflexivity|].
  split; [reflexivity|]. split; [reflexivity|]. split; [reflexivity|].
  cbn. discriminate.
Qed.

Lemma execute_one_settlement_witness :
  requested id (Sample.host Sample.ok) Sample.controller
  ∧ completes (Sample.host Sample.ok) Sample.ok
  ∧ ∃ r, BaseController.execute id BaseController.no_methods Sample.quiet
           (Sample.host Sample.ok) Sample.controller = Normal r
      ∧ BaseController.calls r =
          [Call (Closure 1) [response_of Sample.controller Sample.ok]].
Proof.
  assert (Hreq := sample_requested Sample.ok).
  assert (Hev : completes (Sample.host Sample.ok) Sample.ok)
    by (apply sample_host_completes; reflexivity).
  repeat split; try assumption.
  destruct (execute_one_settlement id BaseController.no_methods Sample.quiet
              (Sample.host Sample.ok) Sample.controller Sample.ok 1%nat 2%nat
              Hreq Hev eq_refl eq_refl)
    as (r & Hr & _ & _ & Hreturns & _).
  exists r. split; [exact Hr|].
  exact (Hreturns eq_refl VUndefined eq_refl).
Defined.

(** C4, as the claim states it, fails both ways.  With a success
    handler that throws, a request that completes with status 200 calls
    the success handler and then the error handler.  With the handlers
    the constructor leaves, which are [null], the same completion calls
    neither, and the promise at the end of the chain is rejected with
    the [TypeError] of calling [null]. *)
Lemma execute_calls_both_handlers_or_none :
  (∃ r, requested id (Sample.host Sample.ok) Sample.controller
      ∧ completes (Sample.host Sample.ok) Sample.ok
      ∧ BaseController.execute id BaseController.no_methods Sample.faulty
          (Sample.host Sample.ok) Sample.controller = Normal r
      ∧ BaseController.calls r =
          [Call (Closure 1) [response_of Sample.controller Sample.ok];
           Call (Closure 2) [VStr "oops"]]
      ∧ handler_called (BaseController.onSuccessEventHandler Sample.controller)
          (BaseController.calls r) = true
      ∧ handler_called (BaseController.onErrorEventHandler Sample.controller)
          (BaseController.calls r) = true)
  ∧ (∃ r, requested id (Sample.host Sample.ok) Sample.bare_controller
        ∧ completes (Sample.host Sample.ok) Sample.ok
        ∧ BaseController.execute id BaseController.no_methods Sample.quiet
            (Sample.host Sample.ok) Sample.bare_controller = Normal r
        ∧ BaseController.calls r = []
        ∧ BaseController.chained r = Rejected TypeError).
Proof.
  split.
  - eexists. split; [apply sample_requested|].
    split; [apply sample_host_completes; reflexivity|].
    split; [vm_compute; reflexivity|]. repeat split.
  - eexists. split; [repeat split|].
    split; [apply sample_host_completes; reflexivity|].
    split; [vm_compute; reflexivity|]. repeat split.
Qed.

(** ** [Payload] *)

(** [JSON.stringify] goes through the [toJSON] method of the class and
    writes what it returns. *)
Lemma stringify_Payload (p : Payload.t) :
  JSON_stringify (Payload.as_value p)
  = SerializeJSONProperty false (Payload.toJSON p).
Proof. reflexivity. Qed.

Lemma stringify_BaseItem (derived : list string) (obj item : value) :
  BaseItem.new derived obj = Normal item →
  mem "Payload" derived = false →
  JSON_stringify item = SerializeJSONProperty false (BaseItem.toJSON item).
Proof.
  unfold BaseItem.new. intros Hnew Hderived.
  destruct (constructor_name (VObj _ _)); [|discriminate].
  destruct (constructor_name obj); [|discriminate].
  injection Hnew as <-. unfold JSON_stringify. cbn -[mem].
  replace (mem "Payload" (derived ++ ["BaseItem"; "Object"])) with false.
  - replace (mem "BaseItem" (derived ++ ["BaseItem"; "Object"])) with true;
      [reflexivity|].
    symmetry. unfold mem. rewrite existsb_app. apply orb_true_r.
  - symmetry. unfold mem in *. rewrite existsb_app, Hderived. reflexivity.
Qed.

Lemma addContent_requestor (adds : list (Z * value)) (p : Payload.t) :
  Payload.priv_requestor
    (foldl (fun q '(now, obj) => Payload.addContent now obj q) p adds)
  = Payload.priv_requestor p.
Proof.
  revert p. induction adds as [|[now obj] adds IH]; intros p; [reflexivity|].
  cbn [foldl]. now rewrite IH.
Qed.

Lemma addContent_content (adds : list (Z * value)) (p : Payload.t) :
  Payload.priv_content
    (foldl (fun q '(now, obj) => Payload.addContent now obj q) p adds)
  = Payload.priv_content p
    ++ map (fun '(now, obj) => entry (Payload.priv_requestor p) now obj) adds.
Proof.
  revert p. induction adds as [|[now obj] adds IH]; intros p.
  - cbn. now rewrite app_nil_r.
  - cbn [foldl map]. rewrite IH. cbn. now rewrite <- app_assoc.
Qed.

(** C1, at the inputs where the code departs from it: every payload
    that has content.  [addContent(obj)], called when [Date.now()] is
    [now], does put the entry [{header: {requestor, time: now}, body:
    obj}] at the end of [#content]; but [toJSON] returns
    [this.content], [Payload] declares a setter for [content] and no
    getter, so [toJSON] returns [undefined], and [JSON.stringify] of
    the payload writes nothing at all, where the claim has it write an
    object with a header and a body. *)
Theorem Payload_serializes_to_nothing (p : Payload.t) (now : Z) (obj : value) :
  let q := Payload.addContent now obj p in
  Payload.priv_content q
  = Payload.priv_content p ++ [entry (Payload.priv_requestor p) now obj]
  ∧ Payload.toJSON q = VUndefined
  ∧ JSON_stringify (Payload.as_value q) = None
  ∧ ¬ ∃ header body,
        JSON_stringify (Payload.as_value q)
        = Some (JObj [("header", header); ("body", body)]).
Proof.
  cbn zeta. split; [reflexivity|]. split; [reflexivity|]. split; [reflexivity|].
  intros (header & body & H). discriminate H.
Qed.

(** The same at the requestor [new Form()], from the constructor on. *)
Lemma Payload_of_a_form_serializes_to_nothing :
  ∃ p, Payload.new declared_name Sample.form = Normal p
     ∧ Payload.priv_requestor p = VStr "Form"
     ∧ JSON_stringify
         (Payload.as_value
            (Payload.addContent 1604275200000 (VObj ["Object"] [("name", VStr "Ada")]) p))
       = None.
Proof. eexists. repeat split. Qed.

(** ** [DataField] *)

(** C5, at the input where the code departs from it: [DataFieldType.Boolean]
    is the enumerator constant 4, and the constructor throws a
    [TypeError] for it, whatever the other arguments. *)
Theorem DataField_rejects_Boolean (env : client)
    (fieldName fieldValue isRequired onValidateCallback : value) :
  Enumerator.get DataFieldType "Boolean" = VNum 4
  ∧ DataField.new env fieldName (Enumerator.get DataFieldType "Boolean")
      fieldValue isRequired onValidateCallback
    = ([], Throw TypeError).
Proof. split; reflexivity. Qed.

Lemma numeric_head_string_of_Z (n : Z) : numeric_head (string_of_Z n) = true.
Proof.
  unfold string_of_Z.
  destruct n as [|p|p]; cbn; [reflexivity| |reflexivity].
  destruct (Pos.to_uint p); reflexivity.
Qed.

Lemma numeric_key_is_no_name (key : string) :
  numeric_head key = true →
  object_has (Enumerator.target DataFieldType) key = false
  ∧ String.eqb key "length" = false
  ∧ mem key Array_prototype_keys = false
  ∧ mem key Object_prototype_keys = false.
Proof.
  destruct key as [|c key]; [discriminate|]. cbn [numeric_head].
  intros Hc. apply existsb_exists in Hc as (d & Hd & Hcd).
  apply Ascii.eqb_eq in Hcd as ->. cbn in Hd.
  repeat (destruct Hd as [<-|Hd]; [repeat split|]); destruct Hd.
Qed.

Lemma string_of_nonnegative (n : Z) :
  0 ≤ n → string_of_Z n = NilZero.string_of_uint (N.to_uint (Z.to_N n)).
Proof. destruct n; [reflexivity|reflexivity|lia]. Qed.

Lemma array_index_string_of_Z (n : Z) :
  0 ≤ n →
  array_index (string_of_Z n)
  = if n <? 4294967295 then Some (Z.to_nat n) else None.
Proof.
  intros Hn. unfold array_index. rewrite (string_of_nonnegative n Hn).
  rewrite NilZero.usu.
  - rewrite DecimalN.Unsigned.of_to, String.eqb_refl. cbn [andb].
    destruct (N.ltb_spec (Z.to_N n) 4294967295), (Z.ltb_spec n 4294967295);
      try lia; [|reflexivity].
    now rewrite Z_N_nat.
  - destruct (Z.to_N n); [discriminate|]. apply Unsigned.to_uint_nonnil.
Qed.

Lemma array_index_negative (n : Z) : n < 0 → array_index (string_of_Z n) = None.
Proof.
  destruct n as [|p|p]; [lia|lia|]. intros _.
  unfold array_index, string_of_Z. cbn.
  now destruct (NilEmpty.uint_of_string _).
Qed.

(** Which integers pass the test [fieldType in DataFieldType]: the trap
    reads the array of the four key names at [fieldType], so the test
    holds from 0 to 3, one below the constants 1 to 4. *)
Lemma DataFieldType_accepts (n : Z) :
  Enumerator.in_ (VNum n) DataFieldType = true ↔ 0 ≤ n ≤ 3.
Proof.
  unfold Enumerator.in_, Enumerator.has, ToPropertyKey. cbn [ToString].
  destruct (numeric_key_is_no_name _ (numeric_head_string_of_Z n))
    as (Hown & Hlength & Harray & Hobject).
  rewrite Hown. unfold array_get.
  destruct (Z.lt_ge_cases n 0) as [Hneg|Hpos].
  - rewrite (array_index_negative n Hneg), Hlength, Harray, Hobject.
    cbn. split; [discriminate|lia].
  - rewrite (array_index_string_of_Z n Hpos).
    destruct (Z.ltb_spec n 4294967295) as [Hsmall|Hbig].
    + destruct (Z.to_nat n) as [|[|[|[|m]]]] eqn:Hm.
      1-4: cbn; split; [lia|reflexivity].
      cbn. destruct m; cbn; (split; [discriminate|lia]).
    + rewrite Hlength, Harray, Hobject. cbn. split; [discriminate|lia].
Qed.

(** ** The setters of [BaseController] *)

(** [PATTERN_URL] on sample addresses: the scheme is [http] or [https],
    the host starts with [www] or [localhost], one more character of
    any kind follows, and then at least one of [a-z0-9-./]. *)
Lemma PATTERN_URL_samples :
  map (RegExp.test PATTERN_URL)
    ["http://www.example.com"; "https://localhost:8080/api"; "https://www/a b";
     "ftp://www.example.com"; "http://example.com"; "http://www";
     "http://www.A"; "HTTP://www.example.com"; " http://www.example.com"]
  = [true; true; true; false; false; false; false; false; false].
Proof. reflexivity. Qed.

Lemma url_guard (v : value) :
  loose_eq_null v || negb (String.eqb (typeof v) "string")
  || BaseController.fails_PATTERN_URL v = true
  ↔ v = VNull ∨ typeof v ≠ "string" ∨ RegExp.test PATTERN_URL (ToString v) = false.
Proof.
  unfold BaseController.fails_PATTERN_URL.
  destruct v as [ | |b|n|s|f|elems|chain props];
    try (split; [intros _; right; left; discriminate | intros _; reflexivity]).
  change (negb (RegExp.test PATTERN_URL s) = true
          ↔ VStr s = VNull ∨ "string" ≠ "string" ∨ RegExp.test PATTERN_URL s = false).
  rewrite negb_true_iff. split; [tauto|].
  intros [H|[H|H]]; [discriminate | congruence | exact H].
Qed.

(** C6, as the code has it.  Assigning [v] to [recipient], and likewise
    to [sender], throws and leaves the controller as it was when [v] is
    [null], is not a string or fails [PATTERN_URL].  The message of the
    error quotes [v], so [v] is converted to a string first: what is
    thrown is a [TypeError] when the conversion returns, as it does
    without a call for every [v] that is no object, and what the
    conversion throws otherwise.  In every other case the setter makes
    no call, stores [v], and the getter then returns it. *)
Theorem url_setters (env : client) (v : value) (c : BaseController.t) :
  let invalid :=
    v = VNull ∨ typeof v ≠ "string" ∨ RegExp.test PATTERN_URL (ToString v) = false in
  (invalid →
     BaseController.set_recipient env v c
       = (throws_after (ToString_client env v) TypeError, c)
     ∧ BaseController.set_sender env v c
       = (throws_after (ToString_client env v) TypeError, c)
     ∧ (∃ e, snd (throws_after (ToString_client env v) TypeError) = Throw e)
     ∧ (typeof v ≠ "object" →
        throws_after (ToString_client env v) TypeError = ([], Throw TypeError)))
  ∧ (¬ invalid →
     ∃ c1 c2,
       BaseController.set_recipient env v c = (([], Normal tt), c1)
       ∧ BaseController.recipient c1 = v
       ∧ BaseController.set_sender env v c = (([], Normal tt), c2)
       ∧ BaseController.sender c2 = v).
Proof.
  intros invalid. unfold BaseController.set_recipient, BaseController.set_sender.
  pose proof (url_guard v) as Hguard. fold invalid in Hguard.
  destruct (_ || _ || _) eqn:Hg.
  - split; [|intros Hvalid; destruct Hvalid; now apply Hguard].
    intros _. rewrite text_throws_after. split; [reflexivity|]. split; [reflexivity|].
    split.
    + unfold throws_after. cbn [snd]. destruct (snd _); eauto.
    + intros Hv. now rewrite (ToString_client_primitive env v Hv).
  - split; [|intros _; eexists _, _; repeat split].
    intros Hinvalid. apply Hguard in Hinvalid. discriminate.
Qed.

Lemma url_setters_witness :
  (BaseController.set_recipient Sample.quiet (VNum 80) BaseController.new
     = (([], Throw TypeError), BaseController.new)
   ∧ BaseController.set_sender Sample.quiet (VNum 80) BaseController.new
     = (([], Throw TypeError), BaseController.new))
  ∧ ∃ c1 c2,
      BaseController.set_recipient Sample.quiet (VStr "http://localhost/api")
        BaseController.new = (([], Normal tt), c1)
      ∧ BaseController.recipient c1 = VStr "http://localhost/api"
      ∧ BaseController.set_sender Sample.quiet (VStr "http://localhost/api")
          BaseController.new = (([], Normal tt), c2)
      ∧ BaseController.sender c2 = VStr "http://localhost/api".
Proof.
  split.
  - destruct (proj1 (url_setters Sample.quiet (VNum 80) BaseController.new))
      as (Hr & Hs & _ & Hquiet).
    + right; left. cbn. discriminate.
    + rewrite Hr, Hs, Hquiet by (cbn; discriminate). now split.
  - apply (proj2 (url_setters Sample.quiet (VStr "http://localhost/api")
                    BaseController.new)).
    intros [H|[H|H]]; [discriminate H | now apply H | vm_compute in H; discriminate H].
Defined.

(** C6, as the claim states it, fails for a value whose conversion to
    a string throws: the object [{toString() { throw "oops" }}] is no
    string, and assigning it to [recipient] or to [sender] calls its
    [toString] and throws ["oops"], which is no [TypeError]. *)
Lemma url_setters_throw_what_toString_throws :
  let v := VObj ["Object"] [("toString", VFun (Closure 1))] in
  typeof v ≠ "string"
  ∧ BaseController.set_recipient Sample.faulty v BaseController.new
    = (([Call (Closure 1) []], Throw (VStr "oops")), BaseController.new)
  ∧ BaseController.set_sender Sample.faulty v BaseController.new
    = (([Call (Closure 1) []], Throw (VStr "oops")), BaseController.new)
  ∧ VStr "oops" ≠ TypeError.
Proof. cbn zeta. split; [discriminate|]. repeat split. discriminate. Qed.

Lemma function_or_null_wellformed (v : value) :
  null_or_function (BaseController.function_or_null v).
Proof.
  unfold BaseController.function_or_null, null_or_function.
  destruct (negb _ && _) eqn:Hv; [|now left].
  right. apply andb_true_iff in Hv as [_ Hv]. now apply String.eqb_eq in Hv.
Qed.

Lemma function_or_null_spec (v : value) :
  (v = VNull ∨ typeof v ≠ "function" → BaseController.function_or_null v = VNull)
  ∧ (typeof v = "function" → BaseController.function_or_null v = v).
Proof.
  unfold BaseController.function_or_null.
  destruct v; cbn; (split; [intros [H|H]|intros H]); congruence.
Qed.

Lemma step_preserves_handlers (op : operation) (c : BaseController.t) :
  handlers_wellformed c → handlers_wellformed (snd (step op c)).
Proof.
  intros [Hs He]. destruct op as [names env v|env v|env v|v|v|env host]; cbn [step].
  - unfold BaseController.set_payload. now destruct (_ || _).
  - unfold BaseController.set_recipient. now destruct (_ || _ || _).
  - unfold BaseController.set_sender. now destruct (_ || _ || _).
  - split; [apply function_or_null_wellformed | exact He].
  - split; [exact Hs | apply function_or_null_wellformed].
  - now destruct (BaseController.execute _ _ _ _ _).
Qed.

Lemma steps_preserve_handlers (ops : list operation) (c : BaseController.t) :
  handlers_wellformed c → handlers_wellformed (steps ops c).
Proof.
  revert c. induction ops as [|op ops IH]; intros c Hc; [exact Hc|].
  apply IH. now apply step_preserves_handlers.
Qed.

(** C9. The two handler fields of a controller are [null] or a function
    at all times: both are [null] after the constructor of
    [BaseController] and functions after that of [DataController]; the
    setters never throw, store [null] when given [null] or a value that
    is not a function and the value itself when it is one; and every
    operation, whether it returns or throws, keeps the fields so. *)
Theorem handlers_null_or_function :
  (∀ v c, ∃ c1 c2,
      BaseController.set_onSuccessEventHandler v c = (Normal tt, c1)
      ∧ BaseController.set_onErrorEventHandler v c = (Normal tt, c2)
      ∧ (v = VNull ∨ typeof v ≠ "function" →
         BaseController.onSuccessEventHandler c1 = VNull
         ∧ BaseController.onErrorEventHandler c2 = VNull)
      ∧ (typeof v = "function" →
         BaseController.onSuccessEventHandler c1 = v
         ∧ BaseController.onErrorEventHandler c2 = v))
  ∧ (∀ op c, handlers_wellformed c → handlers_wellformed (snd (step op c)))
  ∧ (∀ ops, handlers_wellformed (steps ops BaseController.new))
  ∧ (∀ requestor ops,
      handlers_wellformed
        (steps ops (DataController.super (DataController.new requestor)))).
Proof.
  split; [|split; [exact step_preserves_handlers|split]].
  - intros v c. eexists _, _. split; [reflexivity|]. split; [reflexivity|].
    cbn. destruct (function_or_null_spec v) as [Hnull Hfun]. split; auto.
  - intros ops. apply steps_preserve_handlers. split; now left.
  - intros requestor ops. apply steps_preserve_handlers. split; now right.
Qed.

Lemma handlers_null_or_function_witness :
  (BaseController.onSuccessEventHandler
     (snd (BaseController.set_onSuccessEventHandler (VStr "callback")
             Sample.controller)) = VNull)
  ∧ handlers_wellformed
      (snd (step (SetOnErrorEventHandler (VNum 3)) Sample.controller)).
Proof.
  destruct handlers_null_or_function as (Hset & Hstep & _).
  split.
  - destruct (Hset (VStr "callback") Sample.controller)
      as (c1 & c2 & H1 & _ & Hnull & _).
    rewrite H1. apply Hnull. right. cbn. discriminate.
  - apply Hstep. split; right; reflexivity.
Defined.

(** ** [DataController] *)

(** C7. A [DataController] whose requestor has the callback method
    surfaces a failure as it is: [onErrorEventHandler(r)] calls
    [onDataControllerCallbackEvent] once, and makes no other call, with
    the object [{status: DataControllerStatus.Failed, payload: r}],
    where [DataControllerStatus.Failed] is [false]. *)
Theorem failure_surfaced_verbatim (env : client) (this : DataController.t)
    (r : value) (chain : list string) (props : list (string * value)) (f : nat) :
  DataController.priv_requestor this = VObj chain props →
  assoc "onDataControllerCallbackEvent" props = Some (VFun (Closure f)) →
  ∃ event,
    fst (DataController.onErrorEventHandler env this r) = [Call (Closure f) [event]]
    ∧ property event "status" = Enumerator.get DataControllerStatus "Failed"
    ∧ Enumerator.get DataControllerStatus "Failed" = VBool false
    ∧ property event "payload" = r.
Proof.
  intros Hrequestor Hmethod. eexists. split.
  - unfold DataController.onErrorEventHandler, DataController.call_method.
    unfold_effect.
    rewrite Hrequestor, Hmethod. cbn. now destruct (env f _).
  - repeat split.
Qed.

Lemma failure_surfaced_verbatim_witness :
  DataController.priv_requestor (DataController.new Sample.form) = Sample.form
  ∧ ∃ event,
      fst (DataController.onErrorEventHandler Sample.quiet
             (DataController.new Sample.form) (failure_of Sample.not_found))
      = [Call (Closure 7) [event]]
      ∧ property event "status" = Enumerator.get DataControllerStatus "Failed"
      ∧ Enumerator.get DataControllerStatus "Failed" = VBool false
      ∧ property event "payload" = failure_of Sample.not_found.
Proof.
  split; [reflexivity|].
  exact (failure_surfaced_verbatim Sample.quiet (DataController.new Sample.form)
           (failure_of Sample.not_found) ["Form"; "Object"]
           [("onDataControllerCallbackEvent", VFun (Closure 7))] 7%nat
           eq_refl eq_refl).
Defined.

(** The same from end to end: a request of a [DataController] that
    completes with a status other than 200 reaches the requestor once,
    as a failure that carries the status and the response text. *)
Lemma DataController_failure_reaches_requestor (env : client) (host : Host)
    (requestor : value) (this : DataController.t) (ev : XMLHttpRequest)
    (chain : list string) (props : list (string * value)) (f : nat) :
  BaseController.priv_onErrorEventHandler (DataController.super this)
    = BaseController.priv_onErrorEventHandler
        (DataController.super (DataController.new requestor)) →
  DataController.priv_requestor this = VObj chain props →
  assoc "onDataControllerCallbackEvent" props = Some (VFun (Closure f)) →
  requested DataController.super host this →
  completes host ev →
  status ev ≠ 200 →
  ∃ r, DataController.execute env host this = Normal r
    ∧ BaseController.calls r =
        [Call (Closure f)
           [VObj ["Object"] [("status", VBool false); ("payload", failure_of ev)]]].
Proof.
  intros Hhandler Hrequestor Hmethod Hreq Hev Hstatus.
  apply Z.eqb_neq in Hstatus.
  eexists. split.
  - exact (execute_completed DataController.super (DataController.methods env)
             env host this ev Hreq Hev).
  - rewrite Hstatus. cbn [BaseController.calls Promise_then Promise_catch fst snd app].
    unfold BaseController.on_rejected. unfold_effect.
    rewrite Hhandler. cbn.
    unfold DataController.onErrorEventHandler, DataController.call_method.
    unfold_effect.
    rewrite Hrequestor, Hmethod. cbn. now destruct (env f _).
Qed.

(** ** The arithmetic of the host *)

(** Writes 2^53 out, for [lia]. *)
Ltac power53 := change (2 ^ 53) with 9007199254740992 in *.

(** Up to 2^53 in size every integer is a number of the host. *)
Lemma round53_exact (z : Z) : - 2 ^ 53 ≤ z ≤ 2 ^ 53 → round53 z = z.
Proof.
  intros Hz. unfold round53.
  destruct (Z.ltb_spec (Z.abs z) (2 ^ 53)) as [Hsmall|Hbig]; [reflexivity|].
  power53. clear -Hz Hbig.
  assert (H : z = 9007199254740992 ∨ z = - 9007199254740992)
    by (destruct (Z.abs_spec z) as [[? Ha]|[? Ha]]; rewrite Ha in Hbig; lia).
  destruct H as [-> | ->]; vm_compute; reflexivity.
Qed.

Lemma round53_nonnegative (z : Z) : 0 ≤ z → 0 ≤ round53 z.
Proof.
  intros Hz. unfold round53.
  destruct (Z.ltb_spec (Z.abs z) (2 ^ 53)) as [Hsmall|Hbig]; [exact Hz|].
  assert (Hlog : 53 ≤ Z.log2 (Z.abs z))
    by (rewrite <- (Z.log2_pow2 53) by lia; now apply Z.log2_le_mono).
  assert (Hpower : 0 < 2 ^ (Z.log2 (Z.abs z) - 52)) by (apply Z.pow_pos_nonneg; lia).
  assert (Hq : 0 ≤ Z.abs z / 2 ^ (Z.log2 (Z.abs z) - 52))
    by (apply Z.div_pos; [apply Z.abs_nonneg|exact Hpower]).
  cbn zeta. apply Z.mul_nonneg_nonneg; [destruct z; cbn; lia|].
  apply Z.mul_nonneg_nonneg; [|lia]. destruct (_ || _); lia.
Qed.

(** Beyond 2^53 the integers next to a number of the host are not all
    numbers themselves: one more than 2^53 is 2^53 again, and one less
    than 2^53 + 2 is 2^53 as well. *)
Lemma round53_samples :
  round53 (2 ^ 53 + 1) = 2 ^ 53
  ∧ round53 (2 ^ 53 + 2 - 1) = 2 ^ 53
  ∧ round53 (2 ^ 53 + 2) = 2 ^ 53 + 2
  ∧ round53 (2 ^ 53 + 3) = 2 ^ 53 + 4
  ∧ round53 (2 ^ 54 - 1) = 2 ^ 54
  ∧ round53 (- (2 ^ 53) - 1) = - 2 ^ 53.
Proof. repeat split. Qed.

(** ** [BaseItemList] *)

Lemma instance_is_not_null (x : value) (C : string) :
  instanceof x C = true → loose_eq_null x = false.
Proof. now destruct x. Qed.

(** An index passes the guard of [item], [delete] and [replace] exactly
    when it lies between 0 and [length - 1]. *)
Lemma index_guard (index len : Z) :
  (index <? 0) || (index >? len - 1) = false ↔ 0 ≤ index ≤ len - 1.
Proof.
  rewrite orb_false_iff, Z.ltb_ge, Z.gtb_ltb, Z.ltb_ge. tauto.
Qed.

Lemma in_bounds (index : Z) (L : BaseItemList64.t) :
  BaseItemList64.out_of_bounds index L = false
  ↔ 0 ≤ index ≤ round53 (BaseItemList.length L - 1).
Proof.
  unfold BaseItemList64.out_of_bounds.
  rewrite orb_false_iff, Z.ltb_ge, Z.gtb_ltb, Z.ltb_ge. tauto.
Qed.

(** Each method, run where its guards pass, in terms of the two fields. *)
Lemma push64_accepts (names : func -> value) (env : client) (x : value) (L : BaseItemList64.t) :
  instanceof x "BaseItem" = true →
  BaseItemList64.push names env x L
  = (([], Normal tt),
     BaseItemList.mk (round53 (BaseItemList.priv_length L + 1))
       (<[BaseItemList.priv_length L := x]> (BaseItemList.priv_items L))).
Proof.
  intros Hx. unfold BaseItemList64.push.
  now rewrite Hx, (instance_is_not_null x _ Hx).
Qed.

Lemma push64_rejects (names : func -> value) (env : client) (x : value) (L : BaseItemList64.t) :
  instanceof x "BaseItem" = false →
  BaseItemList64.push names env x L
  = (throws_after (constructor_name_text names env x) TypeError, L).
Proof.
  intros Hx. unfold BaseItemList64.push.
  now rewrite Hx, orb_true_r, throw_after_message.
Qed.




(** C10, as the code has it.  On a list whose length [n] is an integer
    from 2 to 2^53, [delete(i)] for an integer index [i] before the
    last one makes the length [n - 1] and empties the slot in place:
    [item(i)] then returns [undefined], and every other index of the
    array, those from [i + 1] to [n - 1] among them, holds what it
    held.  The entry at [n - 1] stays in the array, but [item] no
    longer reaches it: it is out of the bounds that the new length
    sets. *)
Theorem delete_leaves_hole (L : BaseItemList64.t) (n i : Z) :
  BaseItemList.length L = n →
  2 ≤ n ≤ 2 ^ 53 →
  0 ≤ i < n - 1 →
  ∃ L', BaseItemList64.delete i L = (Normal tt, L')
      ∧ BaseItemList.length L' = n - 1
      ∧ BaseItemList64.item i L' = Normal VUndefined
      ∧ (∀ j, j ≠ i → BaseItemList.items L' !! j = BaseItemList.items L !! j)
      ∧ (∀ j, i < j ≤ n - 1 →
              BaseItemList.items L' !! j = BaseItemList.items L !! j)
      ∧ (∀ j, 0 ≤ j < n - 1 → j ≠ i →
              BaseItemList64.item j L' = BaseItemList64.item j L)
      ∧ BaseItemList64.item (n - 1) L' = Throw RangeError.
Proof.
  intros Hn Hn2 Hi. unfold BaseItemList.length in Hn.
  assert (Hdelete : BaseItemList64.delete i L
                    = (Normal tt,
                       BaseItemList.mk (n - 1)
                         (base.delete i (BaseItemList.priv_items L)))).
  { unfold BaseItemList64.delete. replace (BaseItemList64.out_of_bounds i L) with false.
    - cbn [BaseItemList.priv_length]. rewrite Hn.
      now rewrite round53_exact by (power53; lia).
    - symmetry. apply in_bounds. unfold BaseItemList.length. rewrite Hn.
      rewrite round53_exact by (power53; lia). lia. }
  rewrite Hdelete. eexists. split; [reflexivity|].
  assert (Hbounds : ∀ j L0, BaseItemList.priv_length L0 = n - 1 →
            BaseItemList64.out_of_bounds j L0 = negb ((0 <=? j) && (j <=? n - 2))).
  { intros j L0 HL0. unfold BaseItemList64.out_of_bounds, BaseItemList.length.
    rewrite HL0, round53_exact by (power53; lia).
    destruct (Z.ltb_spec j 0), (Z.gtb_spec j (n - 1 - 1)), (Z.leb_spec 0 j),
      (Z.leb_spec j (n - 2)); cbn; lia || reflexivity. }
  assert (Hbefore : ∀ j, BaseItemList64.out_of_bounds j L
                         = negb ((0 <=? j) && (j <=? n - 1))).
  { intros j. unfold BaseItemList64.out_of_bounds, BaseItemList.length.
    rewrite Hn, round53_exact by (power53; lia).
    destruct (Z.ltb_spec j 0), (Z.gtb_spec j (n - 1)), (Z.leb_spec 0 j),
      (Z.leb_spec j (n - 1)); cbn; lia || reflexivity. }
  split; [reflexivity|].
  unfold BaseItemList64.item, BaseItemList.element, BaseItemList.items.
  split; [|split; [|split; [|split]]].
  - rewrite (Hbounds i) by reflexivity.
    destruct (Z.leb_spec 0 i), (Z.leb_spec i (n - 2)); try lia. cbn.
    now rewrite lookup_delete_eq.
  - intros j Hj. cbn. now rewrite lookup_delete_ne.
  - intros j Hj. cbn. rewrite lookup_delete_ne; [reflexivity|lia].
  - intros j Hj Hji. rewrite (Hbounds j) by reflexivity. rewrite Hbefore.
    destruct (Z.leb_spec 0 j), (Z.leb_spec j (n - 2)), (Z.leb_spec j (n - 1));
      try lia. cbn. now rewrite lookup_delete_ne.
  - rewrite (Hbounds (n - 1)) by reflexivity.
    destruct (Z.leb_spec 0 (n - 1)), (Z.leb_spec (n - 1) (n - 2)); try lia.
    reflexivity.
Qed.

Lemma delete_leaves_hole_witness :
  BaseItemList.length Sample.three = 3
  ∧ ∃ L', BaseItemList64.delete 0 Sample.three = (Normal tt, L')
        ∧ BaseItemList.length L' = 3 - 1
        ∧ BaseItemList64.item 0 L' = Normal VUndefined
        ∧ BaseItemList.items L' !! 1 = BaseItemList.items Sample.three !! 1.
Proof.
  split; [reflexivity|].
  destruct (delete_leaves_hole Sample.three 3 0) as (L' & Hdelete & Hlen & Hitem & Hrest & _);
    [reflexivity | power53; lia | lia |].
  exists L'. split; [exact Hdelete|]. split; [exact Hlen|]. split; [exact Hitem|].
  apply Hrest. lia.
Defined.

(** C10, as the claim states it, fails on a list whose length was set
    beyond 2^53: with the length [n = 2^53 + 2] and the index 1, which
    lies before the last one, [delete(1)] makes the length 2^53, which
    is [n - 2]: [n - 1] is no number of the host. *)
Lemma delete_rounds_the_length :
  let n := 2 ^ 53 + 2 in
  let L := BaseItemList.set_length n BaseItemList.new in
  BaseItemList.length L = n
  ∧ 2 ≤ n
  ∧ 0 ≤ 1 < n - 1
  ∧ ∃ L', BaseItemList64.delete 1 L = (Normal tt, L')
        ∧ BaseItemList.length L' = n - 2
        ∧ BaseItemList.length L' ≠ n - 1.
Proof.
  cbn zeta. split; [reflexivity|]. split; [power53; lia|]. split; [power53; lia|].
  eexists. split; [reflexivity|]. split; [vm_compute; reflexivity|].
  vm_compute. discriminate.
Qed.

(** The entries kept in place are the items pushed: after [delete(0)] on
    the sample list, index 1 still holds the second item pushed. *)
Lemma delete_keeps_positions :
  BaseItemList.items (snd (BaseItemList64.delete 0 Sample.three)) !! 1
  = Some Sample.other_item.
Proof. vm_compute. reflexivity. Qed.

(** While the length stays within 2^53 of zero, the methods with the
    arithmetic of the host do to the list what the methods on the
    integers do. *)
Lemma exact_while_small (names : func -> value) (env : client) (L : BaseItemList.t) (index : Z) (x : value) :
  - 2 ^ 53 < BaseItemList.length L < 2 ^ 53 →
  snd (BaseItemList64.push names env x L) = snd (BaseItemList.push x L)
  ∧ BaseItemList64.pop L = BaseItemList.pop L
  ∧ BaseItemList64.delete index L = BaseItemList.delete index L
  ∧ BaseItemList64.replace index x L = BaseItemList.replace index x L
  ∧ BaseItemList64.item index L = BaseItemList.item index L.
Proof.
  intros Hlen. unfold BaseItemList.length in Hlen.
  unfold BaseItemList64.push, BaseItemList.push, BaseItemList64.pop, BaseItemList.pop,
    BaseItemList64.delete, BaseItemList.delete, BaseItemList64.replace,
    BaseItemList.replace, BaseItemList64.item, BaseItemList.item,
    BaseItemList64.out_of_bounds, BaseItemList.set_length, BaseItemList.length.
  cbn [BaseItemList.priv_length BaseItemList.priv_items].
  rewrite !round53_exact by (power53; lia).
  repeat split. now destruct (_ || _).
Qed.

(* ===================================================================== *)
(** * Part 3: further properties of the classes *)
(* ===================================================================== *)

(** ** [Enumerator] *)

Lemma assoc_set_same (k : string) (v : value) (props : list (string * value)) :
  assoc k (assoc_set k v props) = Some v.
Proof.
  induction props as [|[k0 w] props IH]; cbn.
  - now rewrite String.eqb_refl.
  - destruct (String.eqb_spec k0 k) as [->|Hk]; cbn.
    + now rewrite String.eqb_refl.
    + destruct (String.eqb_spec k0 k); [contradiction|exact IH].
Qed.

Lemma assoc_set_other (k k' : string) (v : value) (props : list (string * value)) :
  k' ≠ k → assoc k' (assoc_set k v props) = assoc k' props.
Proof.
  intros Hk. induction props as [|[k0 w] props IH]; cbn.
  - destruct (String.eqb_spec k k'); [congruence|reflexivity].
  - destruct (String.eqb_spec k0 k) as [->|Hk0]; cbn.
    + destruct (String.eqb_spec k k'); [congruence|reflexivity].
    + destruct (String.eqb_spec k0 k'); [reflexivity|exact IH].
Qed.

(** X1. Writing a key of an enumerator and reading it back gives the
    value written, whether the key was declared, inherited or new, and
    leaves what every other key reads as it was; the write reports
    success.  (The key [__proto__] is set aside: on the target it
    names the prototype, not a property.) *)
Theorem Enumerator_set_get (e : Enumerator.t) (k : string) (v : value) :
  k ≠ "__proto__" →
  snd (Enumerator.set e k v) = true
  ∧ Enumerator.get (fst (Enumerator.set e k v)) k = v
  ∧ ∀ k', k' ≠ k →
          Enumerator.get (fst (Enumerator.set e k v)) k' = Enumerator.get e k'.
Proof.
  intros _. split; [reflexivity|]. unfold Enumerator.get, object_has, object_get.
  cbn [Enumerator.set fst Enumerator.target]. split.
  - now rewrite assoc_set_same.
  - intros k' Hk'. now rewrite (assoc_set_other k k' v _ Hk').
Qed.

Lemma Enumerator_set_get_witness :
  "Remove" ≠ "__proto__"
  ∧ Enumerator.get (fst (Enumerator.set ViewControllerAction "Remove" (VNum 9))) "Remove"
    = VNum 9
  ∧ Enumerator.get (fst (Enumerator.set ViewControllerAction "Remove" (VNum 9))) "Load"
    = Enumerator.get ViewControllerAction "Load".
Proof.
  assert (H : "Remove" ≠ "__proto__") by discriminate.
  destruct (Enumerator_set_get ViewControllerAction "Remove" (VNum 9) H)
    as (_ & Hsame & Hother).
  split; [exact H|]. split; [exact Hsame|]. apply Hother. discriminate.
Defined.

(** X2. For a key an enumerator declares, [key in enumerator] holds
    exactly when the value declared is truthy, since the [has] trap
    answers with the value: a key declared with [false], [0], [null] or
    the empty string is reported as absent, while reading it still
    gives its value.  (The enumerator wraps an object literal, which is
    extensible, so the proxy accepts the answer.) *)
Theorem Enumerator_in_declared (e : Enumerator.t) (k : string) (v : value) :
  assoc k (Enumerator.target e) = Some v →
  Enumerator.in_ (VStr k) e = ToBoolean v
  ∧ Enumerator.get e k = v.
Proof.
  intros Hk.
  unfold Enumerator.in_, Enumerator.has, Enumerator.get, object_has, object_get.
  cbn [ToPropertyKey ToString]. unfold ToPropertyKey. cbn [ToString].
  now rewrite Hk.
Qed.

Lemma Enumerator_in_declared_witness :
  assoc "Failed" (Enumerator.target DataControllerStatus) = Some (VBool false)
  ∧ Enumerator.in_ (VStr "Failed") DataControllerStatus = false
  ∧ Enumerator.get DataControllerStatus "Failed" = VBool false.
Proof.
  split; [reflexivity|].
  exact (Enumerator_in_declared DataControllerStatus "Failed" (VBool false) eq_refl).
Defined.

(** ** [DataField], continued *)

(** For a [fieldType] that is no object the key is made without a
    call, and the constructor goes by the test alone. *)
Lemma DataField_new_primitive (env : client)
    (fieldName fieldType fieldValue isRequired onValidateCallback : value) :
  typeof fieldType ≠ "object" →
  DataField.new env fieldName fieldType fieldValue isRequired onValidateCallback
  = if negb (Enumerator.in_ fieldType DataFieldType) then ([], Throw TypeError)
    else
      _ ← DataField.bind_callback env onValidateCallback
            (DataField.as_value
               (DataField.mk fieldName fieldType fieldValue
                  (match isRequired with VUndefined => VBool false | _ => isRequired end)
                  onValidateCallback));
      mret (DataField.mk fieldName fieldType fieldValue
              (match isRequired with VUndefined => VBool false | _ => isRequired end)
              onValidateCallback).
Proof.
  intros Hprimitive. unfold DataField.new.
  rewrite (ToString_client_primitive env fieldType Hprimitive), bind_quiet.
  reflexivity.
Qed.

(** X3. With an integer for [fieldType] and a function for the callback,
    the constructor builds the field exactly when the integer lies
    between 0 and 3, and throws a [TypeError] for every other integer;
    the field built holds the arguments as given, with [false] for a
    missing [isRequired], and no call is made. *)
Theorem DataField_new_integer (env : client) (n : Z)
    (fieldName fieldValue isRequired : value) (f : func) :
  DataField.new env fieldName (VNum n) fieldValue isRequired (VFun f)
  = if (0 <=? n) && (n <=? 3)
    then ([], Normal (DataField.mk fieldName (VNum n) fieldValue
                        (match isRequired with
                         | VUndefined => VBool false
                         | _ => isRequired
                         end)
                        (VFun f)))
    else ([], Throw TypeError).
Proof.
  rewrite DataField_new_primitive by discriminate.
  pose proof (DataFieldType_accepts n) as Haccepts.
  destruct (Enumerator.in_ (VNum n) DataFieldType).
  - replace ((0 <=? n) && (n <=? 3)) with true; [reflexivity|].
    symmetry. apply andb_true_iff. rewrite !Z.leb_le. now apply Haccepts.
  - replace ((0 <=? n) && (n <=? 3)) with false; [reflexivity|].
    symmetry. apply andb_false_iff.
    destruct (Z.leb_spec 0 n), (Z.leb_spec n 3); auto.
    assert (false = true) by (apply Haccepts; lia). discriminate.
Qed.

(** X4. A field cannot be built without a callback: when
    [onValidateCallback] is missing or [null] the constructor throws,
    whatever the other arguments are.  The only calls made are those of
    turning [fieldType] into a property key, none for a [fieldType]
    that is no object, and what is thrown is a [TypeError] unless that
    conversion throws something itself. *)
Theorem DataField_new_needs_callback (env : client)
    (fieldName fieldType fieldValue isRequired onValidateCallback : value) :
  loose_eq_null onValidateCallback = true →
  let built :=
    DataField.new env fieldName fieldType fieldValue isRequired onValidateCallback in
  fst built = fst (ToString_client env fieldType)
  ∧ snd built = match snd (ToString_client env fieldType) with
                | Normal _ => Throw TypeError
                | Throw x => Throw x
                end
  ∧ (typeof fieldType ≠ "object" → built = ([], Throw TypeError)).
Proof.
  intros Hcb. cbn zeta.
  assert (Hnew : DataField.new env fieldName fieldType fieldValue isRequired
                   onValidateCallback
                 = (fst (ToString_client env fieldType),
                    match snd (ToString_client env fieldType) with
                    | Normal _ => Throw TypeError
                    | Throw x => Throw x
                    end)).
  { unfold DataField.new.
    destruct (ToString_client env fieldType) as [t [key|x]]; [|reflexivity].
    unfold_effect. cbn [fst snd].
    destruct (negb _); [now rewrite app_nil_r|].
    destruct onValidateCallback; try discriminate; cbn; now rewrite app_nil_r. }
  rewrite Hnew. split; [reflexivity|]. split; [reflexivity|].
  intros Hprimitive. now rewrite (ToString_client_primitive env fieldType Hprimitive).
Qed.

Lemma DataField_new_needs_callback_witness :
  loose_eq_null VUndefined = true
  ∧ DataField.new Sample.quiet (VStr "age") (VNum 2) (VNum 41) (VBool true) VUndefined
    = ([], Throw TypeError).
Proof.
  split; [reflexivity|].
  apply (DataField_new_needs_callback Sample.quiet (VStr "age") (VNum 2) (VNum 41)
           (VBool true) VUndefined eq_refl).
  discriminate.
Defined.

(** ** [BaseItem] *)





(** X6. The constructor of [BaseItem] throws a [TypeError] exactly for
    a content whose constructor cannot be read: [null], [undefined] and
    objects without a prototype. *)
Theorem BaseItem_new_rejects (derived : list string) (obj : value) :
  BaseItem.new derived obj = Throw TypeError
  ↔ obj = VUndefined ∨ obj = VNull ∨ ∃ props, obj = VObj [] props.
Proof.
  unfold BaseItem.new.
  assert (∃ parent, constructor_name (VObj (derived ++ ["BaseItem"; "Object"]) [])
                    = Normal parent) as [parent ->]
    by (destruct derived; cbn; eauto).
  destruct obj as [ | | | | | | |[|c chain] props]; cbn; split;
    try (intros; discriminate); try (intros _; auto; fail);
    try (intros [H|[H|[? H]]]; discriminate); eauto.
Qed.




(** ** [BaseItemList], continued *)

(** Each method, run where its guards pass, in terms of the two fields. *)
Lemma push_accepts (x : value) (L : BaseItemList.t) :
  instanceof x "BaseItem" = true →
  BaseItemList.push x L
  = (Normal tt,
     BaseItemList.mk (BaseItemList.priv_length L + 1)
       (<[BaseItemList.priv_length L := x]> (BaseItemList.priv_items L))).
Proof.
  intros Hx. unfold BaseItemList.push.
  now rewrite Hx, (instance_is_not_null x _ Hx).
Qed.

Lemma push_rejects (x : value) (L : BaseItemList.t) :
  instanceof x "BaseItem" = false → BaseItemList.push x L = (Throw TypeError, L).
Proof. intros Hx. unfold BaseItemList.push. now rewrite Hx, orb_true_r. Qed.

Lemma list_step_holds_items (op : list_operation) (L : BaseItemList.t) :
  holds_items L → holds_items (list_step op L).
Proof.
  intros HL. destruct op as [x| |i|i x| |n]; cbn [list_step].
  - destruct (instanceof x "BaseItem") eqn:Hx.
    + rewrite (push_accepts x L Hx). intros j y. cbn.
      rewrite lookup_insert_Some. intros [[_ <-]|[_ Hy]]; [exact Hx|exact (HL j y Hy)].
    + now rewrite (push_rejects x L Hx).
  - unfold BaseItemList.pop. destruct (_ >? _); [|exact HL].
    intros j y. cbn. rewrite lookup_delete_Some. intros [_ Hy]. exact (HL j y Hy).
  - unfold BaseItemList.delete. destruct (_ || _); [exact HL|].
    intros j y. cbn. rewrite lookup_delete_Some. intros [_ Hy]. exact (HL j y Hy).
  - unfold BaseItemList.replace. destruct (_ || _); [exact HL|].
    destruct (instanceof x "BaseItem") eqn:Hx.
    + rewrite (instance_is_not_null x _ Hx). intros j y. cbn.
      rewrite lookup_insert_Some. intros [[_ <-]|[_ Hy]]; [exact Hx|exact (HL j y Hy)].
    + now rewrite orb_true_r.
  - intros j y. cbn. now rewrite lookup_empty.
  - exact HL.
Qed.

Lemma list_steps_hold_items (ops : list list_operation) (L : BaseItemList.t) :
  holds_items L → holds_items (list_steps ops L).
Proof.
  revert L. induction ops as [|op ops IH]; intros L HL; [exact HL|].
  apply IH. now apply list_step_holds_items.
Qed.

Lemma list_step64_holds_items (names : func -> value) (env : client) (op : list_operation)
    (L : BaseItemList64.t) :
  holds_items L → holds_items (list_step64 names env op L).
Proof.
  intros HL. destruct op as [x| |i|i x| |n]; cbn [list_step64].
  - destruct (instanceof x "BaseItem") eqn:Hx.
    + rewrite (push64_accepts names env x L Hx). intros j y. cbn.
      rewrite lookup_insert_Some. intros [[_ <-]|[_ Hy]]; [exact Hx|exact (HL j y Hy)].
    + now rewrite (push64_rejects names env x L Hx).
  - unfold BaseItemList64.pop. destruct (_ >? _); [|exact HL].
    intros j y. cbn. rewrite lookup_delete_Some. intros [_ Hy]. exact (HL j y Hy).
  - unfold BaseItemList64.delete. destruct (BaseItemList64.out_of_bounds _ _); [exact HL|].
    intros j y. cbn. rewrite lookup_delete_Some. intros [_ Hy]. exact (HL j y Hy).
  - unfold BaseItemList64.replace.
    destruct (BaseItemList64.out_of_bounds _ _); [exact HL|].
    destruct (instanceof x "BaseItem") eqn:Hx.
    + rewrite (instance_is_not_null x _ Hx). intros j y. cbn.
      rewrite lookup_insert_Some. intros [[_ <-]|[_ Hy]]; [exact Hx|exact (HL j y Hy)].
    + now rewrite orb_true_r.
  - intros j y. cbn. now rewrite lookup_empty.
  - exact HL.
Qed.

Lemma list_steps64_hold_items (names : func -> value) (env : client) (ops : list list_operation)
    (L : BaseItemList64.t) :
  holds_items L → holds_items (list_steps64 names env ops L).
Proof.
  revert L. induction ops as [|op ops IH]; intros L HL; [exact HL|].
  apply IH. now apply list_step64_holds_items.
Qed.

(** X8. Whatever is done to a list with integers for lengths and
    indices, through its methods or through the setter of [length], and
    whether the calls return or throw, [item] at an integer index only
    ever returns an instance of [BaseItem] or [undefined]: nothing else
    gets into the list. *)
Theorem item_returns_items_only (names : func -> value) (env : client) (ops : list list_operation)
    (i : Z) (x : value) :
  BaseItemList64.item i (list_steps64 names env ops BaseItemList.new) = Normal x →
  x = VUndefined ∨ instanceof x "BaseItem" = true.
Proof.
  assert (Hnew : holds_items BaseItemList.new)
    by (intros j y; cbn; now rewrite lookup_empty).
  pose proof (list_steps64_hold_items names env ops _ Hnew) as HL.
  unfold BaseItemList64.item. destruct (BaseItemList64.out_of_bounds _ _); [discriminate|].
  intros [= <-]. unfold BaseItemList.element.
  destruct (BaseItemList.items _ !! i) as [y|] eqn:Hy; [|now left].
  right. exact (HL i y Hy).
Qed.

Lemma item_returns_items_only_witness :
  BaseItemList64.item 0
    (list_steps64 declared_name Sample.quiet
       [Push Sample.item; Push (VStr "stray"); SetLength 5; Delete 3]
       BaseItemList.new)
  = Normal Sample.item
  ∧ (Sample.item = VUndefined ∨ instanceof Sample.item "BaseItem" = true).
Proof.
  assert (H : BaseItemList64.item 0
                (list_steps64 declared_name Sample.quiet
                   [Push Sample.item; Push (VStr "stray"); SetLength 5; Delete 3]
                   BaseItemList.new) = Normal Sample.item) by (vm_compute; reflexivity).
  split; [exact H|].
  exact (item_returns_items_only declared_name Sample.quiet _ 0 Sample.item H).
Defined.

Lemma list_step_packed (op : list_operation) (L : BaseItemList.t) :
  stack_operation op = true → packed L → packed (list_step op L).
Proof.
  intros Hop [Hlen HL]. unfold BaseItemList.length, BaseItemList.items in *.
  destruct op as [x| |i|i x| |n]; try discriminate Hop; cbn [list_step].
  - destruct (instanceof x "BaseItem") eqn:Hx.
    + rewrite (push_accepts x L Hx). split; cbn; [lia|].
      intros j. rewrite lookup_insert_is_Some', HL. lia.
    + rewrite (push_rejects x L Hx). now split.
  - unfold BaseItemList.pop, BaseItemList.length.
    destruct (Z.gtb_spec (BaseItemList.priv_length L) 0); [|now split].
    split; cbn; [lia|]. intros j. rewrite lookup_delete_is_Some, HL. lia.
  - unfold BaseItemList.replace, BaseItemList.length.
    destruct (_ || _) eqn:Hguard; [now split|]. apply index_guard in Hguard.
    destruct (instanceof x "BaseItem") eqn:Hx.
    + rewrite (instance_is_not_null x _ Hx). split; cbn; [lia|].
      intros j. rewrite lookup_insert_is_Some', HL. lia.
    + rewrite orb_true_r. now split.
  - split; cbn; [lia|]. intros j. rewrite lookup_empty.
    split; [intros [? ?]; discriminate|lia].
Qed.

(** X9. A list that is only pushed to, popped, replaced in and cleared
    has no holes: after any such calls its length is not negative and
    its entries sit exactly at the indices from 0 to [length - 1], so
    [item] returns an instance of [BaseItem] at each of them. *)
Theorem stack_use_keeps_list_packed (ops : list list_operation) :
  Forall (fun op => stack_operation op = true) ops →
  packed (list_steps ops BaseItemList.new)
  ∧ ∀ i, 0 ≤ i < BaseItemList.length (list_steps ops BaseItemList.new) →
         ∃ x, BaseItemList.item i (list_steps ops BaseItemList.new) = Normal x
            ∧ instanceof x "BaseItem" = true.
Proof.
  intros Hops.
  assert (Hpacked : packed (list_steps ops BaseItemList.new)).
  { assert (Hnew : packed BaseItemList.new).
    { split; cbn; [lia|]. intros j. rewrite lookup_empty.
      split; [intros [? ?]; discriminate|lia]. }
    revert Hnew. generalize BaseItemList.new.
    induction Hops as [|op ops Hop _ IH]; intros L HL; [exact HL|].
    apply IH. now apply list_step_packed. }
  split; [exact Hpacked|]. intros i Hi.
  destruct Hpacked as [_ HL]. destruct (proj2 (HL i) Hi) as [x Hx].
  exists x. split.
  - unfold BaseItemList.item.
    replace (_ || _) with false by (symmetry; apply index_guard; lia).
    unfold BaseItemList.element. now rewrite Hx.
  - assert (Hnew : holds_items BaseItemList.new)
      by (intros j y; cbn; now rewrite lookup_empty).
    exact (list_steps_hold_items ops _ Hnew i x Hx).
Qed.

Lemma stack_use_keeps_list_packed_witness :
  Forall (fun op => stack_operation op = true)
    [Push Sample.item; Push Sample.other_item; Pop; Replace 0 Sample.other_item]
  ∧ packed (list_steps
              [Push Sample.item; Push Sample.other_item; Pop; Replace 0 Sample.other_item]
              BaseItemList.new).
Proof.
  assert (H : Forall (fun op => stack_operation op = true)
                [Push Sample.item; Push Sample.other_item; Pop;
                 Replace 0 Sample.other_item])
    by (repeat constructor).
  split; [exact H|]. exact (proj1 (stack_use_keeps_list_packed _ H)).
Defined.

(** X10. Without the setter of [length], and with integers for
    indices, the length of a list never goes below zero: [pop] and
    [delete] take nothing from an empty list. *)
Theorem length_never_negative (names : func -> value) (env : client) (ops : list list_operation) :
  Forall (fun op => ∀ n, op ≠ SetLength n) ops →
  0 ≤ BaseItemList.length (list_steps64 names env ops BaseItemList.new).
Proof.
  intros Hops.
  assert (Hnew : 0 ≤ BaseItemList.length BaseItemList.new) by (cbn; lia).
  revert Hnew. generalize BaseItemList.new.
  induction Hops as [|op ops Hop _ IH]; intros L HL; [exact HL|].
  apply IH. unfold BaseItemList.length in *.
  destruct op as [x| |i|i x| |n]; cbn [list_step64].
  - unfold BaseItemList64.push. destruct (_ || _); cbn; [exact HL|].
    apply round53_nonnegative. lia.
  - unfold BaseItemList64.pop, BaseItemList.length.
    destruct (Z.gtb_spec (BaseItemList.priv_length L) 0); cbn; [|exact HL].
    apply round53_nonnegative. lia.
  - unfold BaseItemList64.delete.
    destruct (BaseItemList64.out_of_bounds i L) eqn:Hguard; cbn; [exact HL|].
    apply in_bounds in Hguard. unfold BaseItemList.length in Hguard. lia.
  - unfold BaseItemList64.replace. destruct (BaseItemList64.out_of_bounds _ _); [exact HL|].
    destruct (_ || _); exact HL.
  - cbn. lia.
  - now destruct (Hop n).
Qed.

Lemma length_never_negative_witness :
  Forall (fun op => ∀ n, op ≠ SetLength n) [Pop; Delete 0; Push Sample.item; Pop; Pop]
  ∧ 0 ≤ BaseItemList.length
          (list_steps64 declared_name Sample.quiet [Pop; Delete 0; Push Sample.item; Pop; Pop]
             BaseItemList.new).
Proof.
  assert (H : Forall (fun op => ∀ n, op ≠ SetLength n)
                [Pop; Delete 0; Push Sample.item; Pop; Pop])
    by (repeat constructor; discriminate).
  split; [exact H|]. exact (length_never_negative declared_name Sample.quiet _ H).
Defined.

(** X11. On a list without holes, [pop] undoes [push]: pushing an item
    and popping gives back the list as it was, entry for entry. *)
Theorem pop_undoes_push (L : BaseItemList.t) (x : value) :
  packed L →
  instanceof x "BaseItem" = true →
  BaseItemList.pop (snd (BaseItemList.push x L)) = L.
Proof.
  intros [Hlen HL] Hx. rewrite (push_accepts x L Hx). cbn [snd].
  unfold BaseItemList.length, BaseItemList.items in *.
  unfold BaseItemList.pop, BaseItemList.set_length, BaseItemList.length.
  cbn [BaseItemList.priv_length BaseItemList.priv_items].
  destruct (Z.gtb_spec (BaseItemList.priv_length L + 1) 0); [|lia].
  replace (BaseItemList.priv_length L + 1 - 1) with (BaseItemList.priv_length L) by lia.
  rewrite delete_insert_id.
  - now destruct L.
  - apply eq_None_not_Some. rewrite HL. lia.
Qed.

Lemma pop_undoes_push_witness :
  packed BaseItemList.new
  ∧ instanceof Sample.item "BaseItem" = true
  ∧ BaseItemList.pop (snd (BaseItemList.push Sample.item BaseItemList.new))
    = BaseItemList.new.
Proof.
  assert (H : packed BaseItemList.new).
  { split; cbn; [lia|]. intros j. rewrite lookup_empty.
    split; [intros [? ?]; discriminate|lia]. }
  split; [exact H|]. split; [reflexivity|].
  exact (pop_undoes_push BaseItemList.new Sample.item H eq_refl).
Defined.

(** X12. On a list whose length [n] is an integer up to 2^53, after
    [delete(i)] at an integer index before the last one the next [push]
    does not add an entry at the end: it writes at index [n - 1], over
    the entry that was last, the length is [n] again and the hole at
    [i] stays. *)
Theorem push_after_delete_overwrites (names : func -> value) (env : client) (L : BaseItemList64.t)
    (n i : Z) (x : value) :
  BaseItemList.length L = n →
  n ≤ 2 ^ 53 →
  0 ≤ i < n - 1 →
  instanceof x "BaseItem" = true →
  ∃ L1 L2,
    BaseItemList64.delete i L = (Normal tt, L1)
    ∧ BaseItemList64.push names env x L1 = (([], Normal tt), L2)
    ∧ BaseItemList.length L2 = n
    ∧ BaseItemList64.item (n - 1) L2 = Normal x
    ∧ BaseItemList64.item i L2 = Normal VUndefined
    ∧ ∀ j, j ≠ i → j ≠ n - 1 →
           BaseItemList.items L2 !! j = BaseItemList.items L !! j.
Proof.
  intros Hn Hbound Hi Hx. unfold BaseItemList.length in Hn.
  assert (Hdelete : BaseItemList64.delete i L
                    = (Normal tt,
                       BaseItemList.mk (n - 1)
                         (base.delete i (BaseItemList.priv_items L)))).
  { unfold BaseItemList64.delete. replace (BaseItemList64.out_of_bounds i L) with false.
    - cbn [BaseItemList.priv_length]. rewrite Hn.
      now rewrite round53_exact by (power53; lia).
    - symmetry. apply in_bounds. unfold BaseItemList.length. rewrite Hn.
      rewrite round53_exact by (power53; lia). lia. }
  rewrite Hdelete. eexists _, _. split; [reflexivity|].
  split; [apply (push64_accepts names env x _ Hx)|].
  cbn [BaseItemList.length BaseItemList.priv_length BaseItemList.priv_items
       BaseItemList.items].
  replace (n - 1 + 1) with n by lia. rewrite round53_exact by (power53; lia).
  split; [reflexivity|].
  unfold BaseItemList64.item, BaseItemList.element.
  cbn [BaseItemList.length BaseItemList.priv_length BaseItemList.priv_items
       BaseItemList.items].
  split; [|split].
  - replace (BaseItemList64.out_of_bounds _ _) with false.
    + now rewrite lookup_insert_eq.
    + symmetry. apply in_bounds. cbn [BaseItemList.length BaseItemList.priv_length].
      rewrite round53_exact by (power53; lia). lia.
  - replace (BaseItemList64.out_of_bounds _ _) with false.
    + rewrite lookup_insert_ne by lia. now rewrite lookup_delete_eq.
    + symmetry. apply in_bounds. cbn [BaseItemList.length BaseItemList.priv_length].
      rewrite round53_exact by (power53; lia). lia.
  - intros j Hji Hjn. rewrite lookup_insert_ne by lia. now rewrite lookup_delete_ne.
Qed.

Lemma push_after_delete_overwrites_witness :
  BaseItemList.length Sample.three = 3
  ∧ ∃ L1 L2,
      BaseItemList64.delete 0 Sample.three = (Normal tt, L1)
      ∧ BaseItemList64.push declared_name Sample.quiet Sample.other_item L1 = (([], Normal tt), L2)
      ∧ BaseItemList.length L2 = 3
      ∧ BaseItemList64.item (3 - 1) L2 = Normal Sample.other_item
      ∧ BaseItemList64.item 0 L2 = Normal VUndefined
      ∧ ∀ j, j ≠ 0 → j ≠ 3 - 1 →
             BaseItemList.items L2 !! j = BaseItemList.items Sample.three !! j.
Proof.
  split; [reflexivity|].
  apply (push_after_delete_overwrites declared_name Sample.quiet Sample.three 3 0 Sample.other_item);
    [reflexivity | power53; lia | lia | reflexivity].
Defined.

(** X13. On a list whose length is an integer of size at most 2^53,
    [replace(index, obj)] for an integer index checks the index first
    and the object second.  Out of bounds it throws a [RangeError]; in
    bounds with an [obj] that is no instance of [BaseItem] it throws,
    not the [TypeError] it means to, but a [ReferenceError], since the
    message starts with a variable that does not exist; either way the
    list is as before.  Otherwise [item(index)] then returns [obj], and
    the length and the other entries are unchanged. *)
Theorem replace_spec (L : BaseItemList64.t) (index : Z) (obj : value) :
  - 2 ^ 53 ≤ BaseItemList.length L - 1 ≤ 2 ^ 53 →
  (¬ 0 ≤ index ≤ BaseItemList.length L - 1 →
   BaseItemList64.replace index obj L = (Throw RangeError, L))
  ∧ (0 ≤ index ≤ BaseItemList.length L - 1 →
     instanceof obj "BaseItem" = false →
     BaseItemList64.replace index obj L = (Throw BaseItemList.ReferenceError, L))
  ∧ (0 ≤ index ≤ BaseItemList.length L - 1 →
     instanceof obj "BaseItem" = true →
     ∃ L', BaseItemList64.replace index obj L = (Normal tt, L')
         ∧ BaseItemList.length L' = BaseItemList.length L
         ∧ BaseItemList64.item index L' = Normal obj
         ∧ ∀ j, j ≠ index →
                BaseItemList.items L' !! j = BaseItemList.items L !! j).
Proof.
  intros Hlen. unfold BaseItemList64.replace.
  pose proof (in_bounds index L) as Hguard.
  rewrite (round53_exact _ Hlen) in Hguard.
  destruct (BaseItemList64.out_of_bounds index L) eqn:Hg.
  - split; [reflexivity|]. split; intros Hin; exfalso;
      assert (true = false) by (apply Hguard; exact Hin); discriminate.
  - assert (Hin : 0 ≤ index ≤ BaseItemList.length L - 1) by now apply Hguard.
    split; [intros Hout; contradiction|]. split; intros _ Hobj; rewrite Hobj.
    + now rewrite orb_true_r.
    + rewrite (instance_is_not_null obj _ Hobj). cbn [orb negb].
      eexists. split; [reflexivity|]. split; [reflexivity|].
      unfold BaseItemList64.item, BaseItemList.element, BaseItemList.items,
        BaseItemList64.out_of_bounds, BaseItemList.length in *.
      cbn [BaseItemList.priv_length BaseItemList.priv_items]. rewrite Hg.
      split; [now rewrite lookup_insert_eq|].
      intros j Hj. now rewrite lookup_insert_ne.
Qed.

Lemma replace_spec_witness :
  BaseItemList64.replace 7 Sample.item Sample.three = (Throw RangeError, Sample.three)
  ∧ BaseItemList64.replace 1 (VStr "stray") Sample.three
    = (Throw BaseItemList.ReferenceError, Sample.three)
  ∧ ∃ L', BaseItemList64.replace 1 Sample.item Sample.three = (Normal tt, L')
        ∧ BaseItemList64.item 1 L' = Normal Sample.item.
Proof.
  assert (Hlen : BaseItemList.length Sample.three = 3) by reflexivity.
  assert (Hsmall : - 2 ^ 53 ≤ BaseItemList.length Sample.three - 1 ≤ 2 ^ 53)
    by (rewrite Hlen; power53; lia).
  destruct (replace_spec Sample.three 7 Sample.item Hsmall) as (Hout & _ & _).
  destruct (replace_spec Sample.three 1 (VStr "stray") Hsmall) as (_ & Hstray & _).
  destruct (replace_spec Sample.three 1 Sample.item Hsmall) as (_ & _ & Hin).
  split; [apply Hout; rewrite Hlen; lia|].
  split; [apply Hstray; [rewrite Hlen; lia|reflexivity]|].
  destruct Hin as (L' & HL' & _ & Hitem & _); [rewrite Hlen; lia|reflexivity|].
  exists L'. now split.
Defined.

(** ** [Payload] and the fields of a controller *)

Lemma Get_name_spec (names : func -> value) (c : value) :
  if loose_eq_null c then Get_name names c = Throw TypeError
  else ∃ name, Get_name names c = Normal name.
Proof.
  destruct c as [ | |b|n|s|f|elems|chain props]; cbn; eauto.
  destruct (assoc "name" props); eauto.
Qed.

(** A payload just built is empty and holds the name that was read. *)
Lemma Payload_new_inv (names : func -> value) (requestor : value) (p : Payload.t) :
  Payload.new names requestor = Normal p →
  Payload.priv_content p = []
  ∧ reads_name names requestor = Normal (Payload.priv_requestor p).
Proof.
  unfold Payload.new. destruct (_ || _); [discriminate|].
  destruct (reads_name names requestor) as [name|]; [|discriminate].
  now intros [= <-].
Qed.

(** X14. [new Payload(requestor)] succeeds exactly for an array or an
    object whose [constructor], its own property or else the class its
    prototype gives, is neither [undefined] nor [null].  The payload is
    then empty and carries what [name] reads on that constructor: for a
    requestor without a [constructor] of its own, the name of its
    class.  For every other requestor, a function or a string among
    them, the constructor throws a [TypeError]. *)
Theorem Payload_new_accepts (names : func -> value) (requestor : value) :
  ((∃ p, Payload.new names requestor = Normal p)
   ↔ typeof requestor = "object" ∧ requestor ≠ VNull
     ∧ ∃ c, Get_constructor requestor = Normal c ∧ loose_eq_null c = false)
  ∧ (∀ p, Payload.new names requestor = Normal p →
          Payload.priv_content p = []
          ∧ reads_name names requestor = Normal (Payload.priv_requestor p)
          ∧ (∀ chain props cls,
               requestor = VObj (cls :: chain) props →
               assoc "constructor" props = None →
               Payload.priv_requestor p = names (Method cls "constructor")))
  ∧ (∀ e, Payload.new names requestor = Throw e → e = TypeError).
Proof.
  split; [|split].
  - split.
    + intros [p Hp]. unfold Payload.new in Hp.
      destruct (loose_eq_null requestor || negb (String.eqb (typeof requestor) "object"))
        eqn:Hguard; [discriminate|].
      apply orb_false_iff in Hguard as [Hnull Hobject].
      apply negb_false_iff, String.eqb_eq in Hobject.
      split; [exact Hobject|]. split; [now destruct requestor|].
      unfold reads_name in Hp.
      destruct (Get_constructor requestor) as [c|]; [|discriminate].
      exists c. split; [reflexivity|]. cbn in Hp.
      destruct c; try reflexivity; discriminate.
    + intros (Hobject & Hnull & c & Hc & Hcn). unfold Payload.new, reads_name.
      rewrite Hobject, Hc. replace (loose_eq_null requestor) with false
        by (destruct requestor; try discriminate Hobject; try reflexivity; congruence).
      cbn. pose proof (Get_name_spec names c) as Hname. rewrite Hcn in Hname.
      destruct Hname as [name ->]. now eexists.
  - intros p Hp. destruct (Payload_new_inv names requestor p Hp) as [Hempty Hname].
    split; [exact Hempty|]. split; [exact Hname|].
    intros chain props cls -> Hown. unfold reads_name, Get_constructor in Hname.
    rewrite Hown in Hname. cbn in Hname. congruence.
  - intros e. unfold Payload.new. destruct (_ || _); [congruence|].
    destruct (reads_name names requestor) as [name|e'] eqn:Hname; [discriminate|].
    intros [= <-]. exact (reads_name_throws names requestor e' Hname).
Qed.

(** X28. What a payload holds.  A payload made for a requestor keeps a
    list of entries, one for each call of [addContent], in the order of
    the calls: the call [addContent(obj)] made when [Date.now()] is
    [now] appends [{header: {requestor, time: now}, body: obj}], where
    [requestor] is what the constructor read as the name of the
    requestor's constructor, the same in every entry; [clearContent]
    empties the list and keeps the requestor. *)
Theorem Payload_content_entries (names : func -> value) (requestor : value)
    (p : Payload.t) (adds : list (Z * value)) :
  Payload.new names requestor = Normal p →
  let q := foldl (fun q '(now, obj) => Payload.addContent now obj q) p adds in
  Payload.priv_content q
  = map (fun '(now, obj) => entry (Payload.priv_requestor p) now obj) adds
  ∧ Payload.priv_requestor q = Payload.priv_requestor p
  ∧ Payload.priv_content (Payload.clearContent q) = []
  ∧ Payload.priv_requestor (Payload.clearContent q) = Payload.priv_requestor p
  ∧ reads_name names requestor = Normal (Payload.priv_requestor p).
Proof.
  intros Hnew. cbn zeta.
  destruct (Payload_new_inv names requestor p Hnew) as (Hempty & Hname).
  rewrite addContent_content, addContent_requestor, Hempty.
  split; [reflexivity|]. split; [reflexivity|]. split; [reflexivity|].
  split; [|exact Hname].
  cbn [Payload.clearContent Payload.priv_requestor]. apply addContent_requestor.
Qed.

Lemma Payload_content_entries_witness :
  Payload.new declared_name Sample.form = Normal (Payload.mk [] (VStr "Form"))
  ∧ Payload.priv_content
      (foldl (fun q '(now, obj) => Payload.addContent now obj q)
         (Payload.mk [] (VStr "Form"))
         [(1604275200000, VStr "a"); (1604275200001, VNull)])
    = [entry (VStr "Form") 1604275200000 (VStr "a");
       entry (VStr "Form") 1604275200001 VNull].
Proof.
  split; [reflexivity|].
  exact (proj1 (Payload_content_entries declared_name Sample.form
                  (Payload.mk [] (VStr "Form"))
                  [(1604275200000, VStr "a"); (1604275200001, VNull)] eq_refl)).
Defined.

(** X15. Assigning [v] to [payload] throws and leaves the controller as
    it was unless [v] is an instance of [Payload].  The message of the
    error quotes [v.constructor.name], so what is thrown is a
    [TypeError], with no call made, whenever that name cannot be read
    or is neither an object nor an array; for the others it is a
    [TypeError] unless converting the name to a string throws first.
    An instance is stored, the getter then returns it, and the other
    four fields are untouched.  The setter of [DataController] does the
    same to the fields it inherits and keeps its requestor. *)
Theorem payload_setter (names : func -> value) (env : client) (v : value) (c : BaseController.t)
    (d : DataController.t) :
  (instanceof v "Payload" = false →
   BaseController.set_payload names env v c
     = (throws_after (constructor_name_text names env v) TypeError, c)
   ∧ DataController.set_payload names env v d
     = (throws_after (constructor_name_text names env v) TypeError, d)
   ∧ (∃ e, snd (throws_after (constructor_name_text names env v) TypeError) = Throw e)
   ∧ ((∀ n, reads_name names v = Normal n → converts_quietly n = true) →
      throws_after (constructor_name_text names env v) TypeError = ([], Throw TypeError)))
  ∧ (instanceof v "Payload" = true →
     ∃ c' d',
       BaseController.set_payload names env v c = (([], Normal tt), c')
       ∧ BaseController.payload c' = v
       ∧ BaseController.recipient c' = BaseController.recipient c
       ∧ BaseController.sender c' = BaseController.sender c
       ∧ BaseController.onSuccessEventHandler c' = BaseController.onSuccessEventHandler c
       ∧ BaseController.onErrorEventHandler c' = BaseController.onErrorEventHandler c
       ∧ DataController.set_payload names env v d = (([], Normal tt), d')
       ∧ DataController.payload d' = v
       ∧ DataController.priv_requestor d' = DataController.priv_requestor d).
Proof.
  unfold DataController.set_payload, BaseController.set_payload.
  split; intros Hv; rewrite Hv; cbn [negb orb].
  - rewrite throw_after_message. split; [reflexivity|]. split; [now destruct d|].
    split; [|apply constructor_name_text_quiet].
    unfold throws_after. cbn [snd]. destruct (snd _); eauto.
  - rewrite (instance_is_not_null v _ Hv). eexists _, _. repeat split.
Qed.

Lemma payload_setter_witness :
  (BaseController.set_payload declared_name Sample.quiet (VStr "{}") BaseController.new
   = (([], Throw TypeError), BaseController.new))
  ∧ ∃ c', BaseController.set_payload declared_name Sample.quiet (Payload.as_value Sample.payload)
            BaseController.new = (([], Normal tt), c')
        ∧ BaseController.payload c' = Payload.as_value Sample.payload.
Proof.
  destruct (payload_setter declared_name Sample.quiet (VStr "{}") BaseController.new
              (DataController.new Sample.form)) as [Hbad _].
  destruct (payload_setter declared_name Sample.quiet (Payload.as_value Sample.payload)
              BaseController.new (DataController.new Sample.form)) as [_ Hgood].
  split.
  - destruct (Hbad eq_refl) as (Hset & _ & _ & Hquiet).
    rewrite Hset, Hquiet; [reflexivity|]. now intros n [= <-].
  - destruct (Hgood eq_refl) as (c' & _ & Hset & Hget & _).
    exists c'. now split.
Defined.

Lemma step_preserves_fields (op : operation) (c : BaseController.t) :
  fields_wellformed c → fields_wellformed (snd (step op c)).
Proof.
  intros (Hr & Hs & Hp). destruct op as [names env v|env v|env v|v|v|env host]; cbn [step].
  - unfold BaseController.set_payload.
    destruct (instanceof v "Payload") eqn:Hv; cbn [negb orb]; [|now repeat split].
    rewrite (instance_is_not_null v _ Hv). repeat split; try assumption. now right.
  - unfold BaseController.set_recipient. destruct (_ || _ || _) eqn:Hg; [now repeat split|].
    repeat split; try assumption. right.
    destruct v; try discriminate Hg. cbn in Hg.
    unfold BaseController.fails_PATTERN_URL in Hg. cbn [ToString] in Hg.
    apply negb_false_iff in Hg. eauto.
  - unfold BaseController.set_sender. destruct (_ || _ || _) eqn:Hg; [now repeat split|].
    repeat split; try assumption. right.
    destruct v; try discriminate Hg. cbn in Hg.
    unfold BaseController.fails_PATTERN_URL in Hg. cbn [ToString] in Hg.
    apply negb_false_iff in Hg. eauto.
  - now repeat split.
  - now repeat split.
  - now destruct (BaseController.execute _ _ _ _ _).
Qed.

Lemma steps_preserve_fields (ops : list operation) (c : BaseController.t) :
  fields_wellformed c → fields_wellformed (steps ops c).
Proof.
  revert c. induction ops as [|op ops IH]; intros c Hc; [exact Hc|].
  apply IH. now apply step_preserves_fields.
Qed.

Lemma new_fields_wellformed : fields_wellformed BaseController.new.
Proof. repeat split; now left. Qed.

(** X16. Whatever is assigned to a controller, and whether the setters
    return or throw, [recipient] is [null] or a string that matches
    [PATTERN_URL], [sender] is [undefined] or such a string, and
    [payload] is [null] or an instance of [Payload]. *)
Theorem controller_fields_wellformed (ops : list operation) :
  fields_wellformed (steps ops BaseController.new).
Proof. apply steps_preserve_fields, new_fields_wellformed. Qed.

(** X17. What a controller puts on the wire.  While no recipient or no
    payload has been assigned with success, [execute] throws an [Error]
    and no request is made.  Every request that is made is a [POST] of
    type [application/json] to a string that matches [PATTERN_URL].
    When the payload is a [Payload] as its constructor and [addContent]
    leave it, the request has no body: [JSON.stringify] goes by the
    [toJSON] of [Payload], which returns [undefined]. *)
Theorem request_on_the_wire (ops : list operation) (env : client) (host : Host) :
  let c := steps ops BaseController.new in
  (BaseController.recipient c = VNull ∨ BaseController.payload c = VNull →
   BaseController.execute id BaseController.no_methods env host c = Throw Error)
  ∧ ∀ r request,
      BaseController.execute id BaseController.no_methods env host c = Normal r →
      BaseController.sent r = Some request →
      method request = "POST"
      ∧ headers request = [("Content-type", "application/json")]
      ∧ (∃ s, url request = VStr s ∧ RegExp.test PATTERN_URL s = true)
      ∧ ∀ p, BaseController.payload c = Payload.as_value p → body request = None.
Proof.
  intros c.
  destruct (steps_preserve_fields ops _ new_fields_wellformed) as (Hr & _ & Hp).
  fold c in Hr, Hp.
  unfold BaseController.execute, BaseController.execute_at,
    BaseController.executor_at. cbn [id].
  split.
  - intros [-> | Hnull]; [reflexivity|]. rewrite Hnull.
    now destruct (loose_eq_null (BaseController.recipient c)).
  - intros r request.
    destruct (loose_eq_null (BaseController.recipient c)) eqn:Hrn; [discriminate|].
    destruct (loose_eq_null (BaseController.payload c)) eqn:Hpn; [discriminate|].
    destruct (window_XMLHttpRequest host).
    + destruct (Promise_then _ _) as [t1 p1], (Promise_catch p1 _) as [t2 p2].
      intros [= <-] [= <-]. cbn.
      repeat split.
      * destruct Hr as [Hr|Hr]; [rewrite Hr in Hrn; discriminate|exact Hr].
      * intros p ->. reflexivity.
    + destruct (Promise_then _ _) as [t1 p1], (Promise_catch p1 _) as [t2 p2].
      intros [= <-]. discriminate.
Qed.

Lemma request_on_the_wire_witness :
  let ops := [SetRecipient Sample.quiet (VStr "https://www.example.com/save");
              SetPayload declared_name Sample.quiet (Payload.as_value Sample.payload)] in
  ∃ r request,
    BaseController.execute id BaseController.no_methods Sample.quiet
      (Sample.host Sample.ok) (steps ops BaseController.new) = Normal r
    ∧ BaseController.sent r = Some request
    ∧ method request = "POST"
    ∧ body request = None.
Proof.
  cbn zeta.
  destruct (request_on_the_wire
              [SetRecipient Sample.quiet (VStr "https://www.example.com/save");
               SetPayload declared_name Sample.quiet (Payload.as_value Sample.payload)]
              Sample.quiet (Sample.host Sample.ok)) as [_ Hshape].
  cbn zeta in Hshape.
  assert (∃ r request,
            BaseController.execute id BaseController.no_methods Sample.quiet
              (Sample.host Sample.ok)
              (steps [SetRecipient Sample.quiet (VStr "https://www.example.com/save");
                      SetPayload declared_name Sample.quiet (Payload.as_value Sample.payload)]
                 BaseController.new) = Normal r
            ∧ BaseController.sent r = Some request)
    as (r & request & Hrun & Hsent)
    by (eexists _, _; split; [vm_compute; reflexivity|reflexivity]).
  exists r, request. split; [exact Hrun|]. split; [exact Hsent|].
  destruct (Hshape r request Hrun Hsent) as (Hmethod & _ & _ & Hbody).
  split; [exact Hmethod|]. exact (Hbody Sample.payload eq_refl).
Defined.

(** ** [BaseController.execute], continued *)

Section ExecuteEdges.

Context {Self : Type}.
Variable super : Self -> BaseController.t.
Variable methods : string -> string -> option (Self -> list value -> effect value).
Variable env : client.

(** [execute] got past its two guards. *)
Let ready (self : Self) : Prop :=
  loose_eq_null (BaseController.recipient (super self)) = false
  ∧ loose_eq_null (BaseController.payload (super self)) = false.

(** X18. In a host without [XMLHttpRequest], [execute] does not throw:
    no request is made, the promise is rejected with the [Error] the
    executor throws, and that error goes to the error handler, which is
    called once when it is a function of the client; the events of the
    host change nothing, and the success handler is never called. *)
Theorem execute_without_XMLHttpRequest (host : Host) (self : Self) :
  ready self →
  window_XMLHttpRequest host = false →
  ∃ r, BaseController.execute super methods env host self = Normal r
    ∧ BaseController.sent r = None
    ∧ BaseController.promisse r = Rejected Error
    ∧ ∀ f, BaseController.priv_onErrorEventHandler (super self) = VFun (Closure f) →
           BaseController.calls r = [Call (Closure f) [Error]].
Proof.
  intros [Hrecipient Hpayload] Hxhr.
  unfold BaseController.execute, BaseController.execute_at,
    BaseController.executor_at.
  rewrite Hrecipient, Hpayload, Hxhr.
  rewrite (settled_stays super self (readystatechange host) (Rejected Error))
    by discriminate.
  cbn [Promise_then Promise_catch].
  destruct (BaseController.on_rejected super methods env self Error) as [t r] eqn:Hcall.
  eexists. split; [reflexivity|]. split; [reflexivity|]. split; [reflexivity|].
  intros f Hf. cbn [BaseController.calls app].
  unfold BaseController.on_rejected in Hcall. unfold_effect.
  unfold mbind, effect_bind, ebind in Hcall.
  rewrite Hf in Hcall. cbn in Hcall.
  destruct (env f [Error]); now injection Hcall as <- _.
Qed.


(** X20. A request completes once: the events the host fires after the
    first one with [readyState] 4 change nothing, whatever status and
    text they show.  The run is the one of the host that stops there. *)
Theorem execute_ignores_later_events (xhr : bool)
    (pre post : list XMLHttpRequest) (ev : XMLHttpRequest) (self : Self) :
  Forall (fun e => readyState e ≠ 4) pre →
  readyState ev = 4 →
  BaseController.execute super methods env (mkHost xhr (pre ++ ev :: post)) self
  = BaseController.execute super methods env (mkHost xhr (pre ++ [ev])) self.
Proof.
  intros Hpre Hev. unfold BaseController.execute, BaseController.execute_at,
    BaseController.executor_at.
  cbn [window_XMLHttpRequest readystatechange].
  destruct (loose_eq_null _); [reflexivity|].
  destruct (loose_eq_null _); [reflexivity|].
  destruct xhr.
  - assert (Hlong : completes (mkHost true (pre ++ ev :: post)) ev)
      by (exists pre, post; auto).
    assert (Hshort : completes (mkHost true (pre ++ [ev])) ev)
      by (exists pre, []; auto).
    pose proof (first_completion_settles super self _ ev Hlong) as H1.
    pose proof (first_completion_settles super self _ ev Hshort) as H2.
    cbn [readystatechange] in H1, H2. now rewrite H1, H2.
  - now rewrite !(settled_stays super self _ (Rejected Error)) by discriminate.
Qed.

End ExecuteEdges.

Lemma execute_without_XMLHttpRequest_witness :
  ∃ r, BaseController.execute id BaseController.no_methods Sample.quiet
         (mkHost false []) Sample.controller = Normal r
     ∧ BaseController.sent r = None
     ∧ BaseController.calls r = [Call (Closure 2) [Error]].
Proof.
  destruct (execute_without_XMLHttpRequest id BaseController.no_methods Sample.quiet
              (mkHost false []) Sample.controller (conj eq_refl eq_refl) eq_refl)
    as (r & Hr & Hsent & _ & Hcalls).
  exists r. split; [exact Hr|]. split; [exact Hsent|]. exact (Hcalls 2%nat eq_refl).
Defined.


Lemma execute_ignores_later_events_witness :
  BaseController.execute id BaseController.no_methods Sample.quiet
    (mkHost true ([mkXHR 1 0 EmptyString] ++ Sample.ok :: [Sample.not_found]))
    Sample.controller
  = BaseController.execute id BaseController.no_methods Sample.quiet
      (mkHost true ([mkXHR 1 0 EmptyString] ++ [Sample.ok])) Sample.controller.
Proof.
  apply (execute_ignores_later_events id BaseController.no_methods Sample.quiet true
           [mkXHR 1 0 EmptyString] [Sample.not_found] Sample.ok Sample.controller).
  - repeat constructor; cbn; lia.
  - reflexivity.
Defined.

(** ** [DataController], continued *)

(** X21. A request of a [DataController] that completes with status 200
    reaches the requestor as a success that carries the response.  When
    the requestor's callback throws on it, the callback is called a
    second time, now with a failure that carries the value thrown: one
    completion can be reported to the requestor twice. *)
Theorem DataController_success_reaches_requestor (env : client) (host : Host)
    (this : DataController.t) (ev : XMLHttpRequest)
    (chain : list string) (props : list (string * value)) (f : nat) :
  BaseController.priv_onSuccessEventHandler (DataController.super this)
    = VFun (Method "DataController" "onSuccessEventHandler") →
  BaseController.priv_onErrorEventHandler (DataController.super this)
    = VFun (Method "DataController" "onErrorEventHandler") →
  DataController.priv_requestor this = VObj chain props →
  assoc "onDataControllerCallbackEvent" props = Some (VFun (Closure f)) →
  requested DataController.super host this →
  completes host ev →
  status ev = 200 →
  let response := response_of (DataController.super this) ev in
  let succeeded := VObj ["Object"] [("status", VBool true); ("payload", response)] in
  ∃ r, DataController.execute env host this = Normal r
    ∧ BaseController.calls r =
        Call (Closure f) [succeeded]
        :: match env f [succeeded] with
           | Normal _ => []
           | Throw x =>
               [Call (Closure f)
                  [VObj ["Object"] [("status", VBool false); ("payload", x)]]]
           end.
Proof.
  intros Hs He Hrequestor Hmethod Hreq Hev Hstatus response succeeded.
  eexists. split.
  - exact (execute_completed DataController.super (DataController.methods env)
             env host this ev Hreq Hev).
  - rewrite Hstatus. cbn [Z.eqb Pos.eqb BaseController.calls Promise_then fst snd].
    unfold BaseController.on_fulfilled, BaseController.on_rejected. unfold_effect.
    rewrite Hs, He. cbn.
    unfold DataController.onSuccessEventHandler, DataController.onErrorEventHandler,
      DataController.call_method. unfold_effect.
    rewrite Hrequestor, Hmethod. cbn. fold response. fold succeeded.
    destruct (env f [succeeded]) as [w|x]; cbn; [reflexivity|].
    now destruct (env f _).
Qed.

Lemma DataController_success_reaches_requestor_witness :
  let this :=
    snd (DataController.set_payload declared_name Sample.quiet (Payload.as_value Sample.payload)
           (snd (DataController.set_recipient Sample.quiet
                   (VStr "https://www.example.com/save")
                   (DataController.new Sample.form)))) in
  ∃ r, DataController.execute Sample.quiet (Sample.host Sample.ok) this = Normal r
     ∧ BaseController.calls r =
         [Call (Closure 7)
            [VObj ["Object"]
               [("status", VBool true);
                ("payload", response_of (DataController.super this) Sample.ok)]]].
Proof.
  cbn zeta.
  destruct (DataController_success_reaches_requestor Sample.quiet
              (Sample.host Sample.ok)
              (snd (DataController.set_payload declared_name Sample.quiet (Payload.as_value Sample.payload)
                      (snd (DataController.set_recipient Sample.quiet
                              (VStr "https://www.example.com/save")
                              (DataController.new Sample.form)))))
              Sample.ok ["Form"; "Object"]
              [("onDataControllerCallbackEvent", VFun (Closure 7))] 7%nat
              eq_refl eq_refl eq_refl eq_refl)
    as (r & Hr & Hcalls).
  - repeat split.
  - apply sample_host_completes. reflexivity.
  - reflexivity.
  - exists r. split; [exact Hr|exact Hcalls].
Defined.

(** ** [DataRow] *)

(** X22. [push(...fields)] of a [DataRow] adds one row for all its
    arguments.  Without arguments it throws an [Error].  With an
    argument that is no instance of [DataField] it throws for the first
    such argument: a [TypeError], without a call, when the name of the
    constructor of its prototype cannot be read or is neither an object
    nor an array, and else a [TypeError] unless converting that name
    throws first.  Either way the row list is as before.  Otherwise
    the array of the arguments becomes the one new entry, at the index
    the length had; on a list whose length is an integer of size below
    2^53 the length grows by one whatever the number of fields, and
    when the length was not negative [item(length - 1)] then returns
    that array. *)
Theorem DataRow_push_spec (names : func -> value) (env : client)
    (fields : list value) (this : DataRow.t) :
  (fields = [] → DataRow.push names env fields this = (([], Throw Error), this))
  ∧ (∀ v, fields ≠ [] →
          List.find (fun value => negb (instanceof value "DataField")) fields = Some v →
          DataRow.push names env fields this
          = (throws_after (prototype_name_text names env v) TypeError, this)
          ∧ ((∀ n, prototype_name names v = Normal n → converts_quietly n = true) →
             DataRow.push names env fields this = (([], Throw TypeError), this)))
  ∧ (fields ≠ [] →
     (∀ v, In v fields → instanceof v "DataField" = true) →
     ∃ this',
       DataRow.push names env fields this = (([], Normal tt), this')
       ∧ BaseItemList.items (DataRow.super this')
           !! BaseItemList.length (DataRow.super this) = Some (VArr fields)
       ∧ (∀ j, j ≠ BaseItemList.length (DataRow.super this) →
               BaseItemList.items (DataRow.super this') !! j
               = BaseItemList.items (DataRow.super this) !! j)
       ∧ DataRow.getErrors this' = DataRow.getErrors this
       ∧ (- 2 ^ 53 < BaseItemList.length (DataRow.super this) < 2 ^ 53 →
          BaseItemList.length (DataRow.super this')
          = BaseItemList.length (DataRow.super this) + 1)
       ∧ (0 ≤ BaseItemList.length (DataRow.super this) < 2 ^ 53 →
          DataRow.item (BaseItemList.length (DataRow.super this') - 1) this'
          = Normal (VArr fields))).
Proof.
  unfold DataRow.push. split; [intros ->; reflexivity|].
  assert (Hlen : fields ≠ [] → (Z.of_nat (List.length fields) =? 0) = false)
    by (destruct fields; [congruence|reflexivity]).
  split.
  - intros v Hne Hfind. rewrite (Hlen Hne), Hfind, throw_after_message.
    split; [reflexivity|]. intros Hname. f_equal.
    unfold prototype_name_text, lift.
    destruct (prototype_name names v) as [n|e] eqn:Hreads.
    + rewrite bind_quiet, (ToString_client_quiet env n (Hname n eq_refl)). reflexivity.
    + unfold prototype_name in Hreads.
      destruct (constructor_name v) as [c|e'] eqn:Hc; [discriminate|].
      injection Hreads as <-. destruct v as [ | | | | | | |[|c chain] props];
        cbn in Hc; try discriminate; now injection Hc as <-.
  - intros Hne Hfields. rewrite (Hlen Hne).
    replace (List.find _ fields) with (@None value).
    2:{ symmetry. clear Hne Hlen. induction fields as [|v fields IH]; [reflexivity|].
        cbn. rewrite (Hfields v) by now left. cbn.
        apply IH. intros w Hw. apply Hfields. now right. }
    eexists. split; [reflexivity|].
    unfold DataRow.item, DataRow.getErrors, BaseItemList64.item,
      BaseItemList64.out_of_bounds, BaseItemList.element,
      BaseItemList.set_length, BaseItemList.length, BaseItemList.items.
    cbn [DataRow.super DataRow.priv_errorLog BaseItemList.priv_length
         BaseItemList.priv_items].
    split; [now rewrite lookup_insert_eq|].
    split; [intros j Hj; now rewrite lookup_insert_ne|]. split; [reflexivity|].
    split; [intros Hsmall; apply round53_exact; power53; lia|].
    intros Hpos. rewrite (round53_exact (_ + 1)) by (power53; lia).
    replace (BaseItemList.priv_length (DataRow.super this) + 1 - 1)
      with (BaseItemList.priv_length (DataRow.super this)) by lia.
    rewrite round53_exact by (power53; lia).
    replace (_ || _) with false; [now rewrite lookup_insert_eq|].
    symmetry. apply orb_false_iff. rewrite Z.ltb_ge, Z.gtb_ltb, Z.ltb_ge. lia.
Qed.

Lemma DataRow_push_spec_witness :
  DataRow.push declared_name Sample.quiet [] DataRow.new = (([], Throw Error), DataRow.new)
  ∧ DataRow.push declared_name Sample.quiet [Sample2.field; Sample.item] DataRow.new
    = (([], Throw TypeError), DataRow.new)
  ∧ ∃ this',
      DataRow.push declared_name Sample.quiet [Sample2.field; Sample2.other_field]
        DataRow.new = (([], Normal tt), this')
      ∧ BaseItemList.length (DataRow.super this') = 0 + 1
      ∧ DataRow.item (BaseItemList.length (DataRow.super this') - 1) this'
        = Normal (VArr [Sample2.field; Sample2.other_field]).
Proof.
  destruct (DataRow_push_spec declared_name Sample.quiet [] DataRow.new)
    as (Hnone & _ & _).
  destruct (DataRow_push_spec declared_name Sample.quiet [Sample2.field; Sample.item]
              DataRow.new) as (_ & Hstray & _).
  destruct (DataRow_push_spec declared_name Sample.quiet
              [Sample2.field; Sample2.other_field] DataRow.new) as (_ & _ & Hrow).
  split; [exact (Hnone eq_refl)|]. split.
  - apply (Hstray Sample.item); [discriminate|reflexivity|].
    now intros n [= <-].
  - destruct Hrow as (this' & Hpush & _ & _ & _ & Hlen & Hitem).
    + discriminate.
    + intros v [<-|[<-|[]]]; reflexivity.
    + exists this'. split; [exact Hpush|].
      split; [apply Hlen; cbn; power53; lia|apply Hitem; cbn; power53; lia].
Defined.



(** ** [Carrousel] *)

(** Splits on a comparison of integers in the goal. *)
Ltac case_comparison :=
  match goal with
  | |- context [Z.geb ?a ?b] => destruct (Z.geb_spec a b)
  | |- context [Z.ltb ?a ?b] => destruct (Z.ltb_spec a b)
  end.

Lemma String_split_nonempty (sep : ascii) (s : string) :
  (0 < List.length (String_split sep s))%nat.
Proof.
  induction s as [|c s IH]; cbn; [lia|].
  destruct (Ascii.eqb c sep); cbn; [lia|].
  destruct (String_split sep s); cbn in *; lia.
Qed.

Lemma photo_text_lookup (photos : list string) (index : Z) (photo : string) :
  0 ≤ index →
  photos !! Z.to_nat index = Some photo →
  Carrousel.photo_text photos index = photo.
Proof.
  intros Hindex Hphoto. unfold Carrousel.photo_text.
  destruct (Z.ltb_spec index 0); [lia|]. now rewrite Hphoto.
Qed.

(** Showing the photo at an index in range establishes [shows_photo]. *)
Lemma showPhoto_shows (index : Z) (photos : list string) (html image : string) :
  0 ≤ index < Z.of_nat (List.length photos) →
  shows_photo (Carrousel.showPhoto (Carrousel.mk index photos html image)).
Proof.
  intros Hindex. split; [exact Hindex|]. cbn.
  destruct (lookup_lt_is_Some_2 photos (Z.to_nat index)) as [photo Hphoto]; [lia|].
  exists photo. split; [exact Hphoto|].
  now rewrite (photo_text_lookup photos index photo) by (lia || assumption).
Qed.

Lemma clicked_shows (c : Carrousel.t) (k : click) :
  shows_photo c →
  shows_photo (clicked c k)
  ∧ Carrousel._photos (clicked c k) = Carrousel._photos c
  ∧ Carrousel.innerHTML (clicked c k) = Carrousel.innerHTML c.
Proof.
  intros [Hindex _]. destruct k; cbn [clicked];
    unfold Carrousel.onBackButtonClick, Carrousel.onForwardButtonClick.
  - split; [|split; reflexivity]. apply showPhoto_shows.
    destruct (Z.ltb_spec (Carrousel._photoIndex c - 1) 0); lia.
  - split; [|split; reflexivity]. apply showPhoto_shows.
    destruct (Z.geb_spec (Carrousel._photoIndex c + 1)
                (Z.of_nat (List.length (Carrousel._photos c)))); lia.
Qed.

(** A click leaves the index within the list, and the list as it is. *)
Lemma clicked_in_range (c : Carrousel.t) (k : click) :
  0 ≤ Carrousel._photoIndex c < Z.of_nat (List.length (Carrousel._photos c)) →
  0 ≤ Carrousel._photoIndex (clicked c k)
    < Z.of_nat (List.length (Carrousel._photos (clicked c k)))
  ∧ Carrousel._photos (clicked c k) = Carrousel._photos c.
Proof.
  intros Hindex. destruct k; cbn [clicked];
    unfold Carrousel.onBackButtonClick, Carrousel.onForwardButtonClick; cbn.
  - split; [|reflexivity].
    destruct (Z.ltb_spec (Carrousel._photoIndex c - 1) 0); lia.
  - split; [|reflexivity].
    destruct (Z.geb_spec (Carrousel._photoIndex c + 1)
                (Z.of_nat (List.length (Carrousel._photos c)))); lia.
Qed.

(** X24. The index of a carrousel always points at one of its photos.
    Without a [photos] attribute [connectedCallback] throws a
    [TypeError], and so it does when the host does not find the two
    buttons and the image container in the markup, as can happen with
    a title or an author that holds markup itself.  Otherwise it
    returns; the photos are the parts of the attribute between commas,
    of which there is at least one, the index is 0, and after any
    clicks on the two buttons the index is within the list, which is
    as it was: the buttons wrap round and never run off either end. *)
Theorem Carrousel_index_stays_in_range (finds : string -> string -> bool)
    (photos title author : option string) :
  match photos with
  | None => Carrousel.connectedCallback finds photos title author = Throw TypeError
  | Some s =>
      if finds (Carrousel.markup title author) "button.back"
         && finds (Carrousel.markup title author) "button.forward"
         && finds (Carrousel.markup title author) ".image-container"
      then
        ∃ c, Carrousel.connectedCallback finds photos title author = Normal c
           ∧ Carrousel._photoIndex c = 0
           ∧ Carrousel._photos c = String_split Carrousel.comma s
           ∧ ∀ clicks,
               0 ≤ Carrousel._photoIndex (foldl clicked c clicks)
                 < Z.of_nat (List.length (String_split Carrousel.comma s))
               ∧ Carrousel._photos (foldl clicked c clicks)
                 = String_split Carrousel.comma s
      else Carrousel.connectedCallback finds photos title author = Throw TypeError
  end.
Proof.
  destruct photos as [s|]; [|reflexivity].
  unfold Carrousel.connectedCallback. cbn [Carrousel.innerHTML].
  destruct (finds _ "button.back"); [|reflexivity].
  destruct (finds _ "button.forward"); [|reflexivity].
  destruct (finds _ ".image-container"); [|reflexivity].
  cbn [andb negb]. eexists. split; [reflexivity|]. split; [reflexivity|].
  split; [reflexivity|].
  set (c := Carrousel.showPhoto _).
  assert (Hc : 0 ≤ Carrousel._photoIndex c < Z.of_nat (List.length (Carrousel._photos c))
               ∧ Carrousel._photos c = String_split Carrousel.comma s).
  { split; [|reflexivity]. cbn.
    pose proof (String_split_nonempty Carrousel.comma s). lia. }
  clearbody c. intros clicks. revert c Hc.
  induction clicks as [|k clicks IH]; intros c [Hindex Hphotos].
  - split; [now rewrite <- Hphotos|exact Hphotos].
  - cbn [foldl]. apply IH.
    destruct (clicked_in_range c k Hindex) as [Hindex' Hphotos'].
    split; [exact Hindex'|congruence].
Qed.

Lemma Carrousel_index_stays_in_range_witness :
  ∃ c, Carrousel.connectedCallback (fun _ _ => true) (Some "a.png,b.png") (Some "Views")
         None = Normal c
     ∧ Carrousel._photos c = ["a.png"; "b.png"]
     ∧ Carrousel._photoIndex (foldl clicked c [Back; Back; Forward]) = 1.
Proof.
  pose proof (Carrousel_index_stays_in_range (fun _ _ => true) (Some "a.png,b.png")
                (Some "Views") None) as (c & Hc & Hindex & Hphotos & Hclicks).
  exists c. split; [exact Hc|]. split; [exact Hphotos|].
  injection Hc as <-. reflexivity.
Defined.

Lemma shows_photo_determined (a b : Carrousel.t) :
  shows_photo a → shows_photo b →
  Carrousel._photoIndex a = Carrousel._photoIndex b →
  Carrousel._photos a = Carrousel._photos b →
  Carrousel.innerHTML a = Carrousel.innerHTML b →
  a = b.
Proof.
  intros [_ (pa & Hpa & Hia)] [_ (pb & Hpb & Hib)] Hindex Hphotos Hhtml.
  destruct a as [ia la ha ga], b as [ib lb hb gb]. cbn in *. subst.
  rewrite Hpa in Hpb. now injection Hpb as ->.
Qed.

(** X25. The two buttons undo each other: from a carrousel that shows
    a photo, forward then back, and back then forward, lead to the same
    photo, at both ends of the list as in the middle. *)
Theorem Carrousel_back_undoes_forward (c : Carrousel.t) :
  shows_photo c →
  Carrousel.onBackButtonClick (Carrousel.onForwardButtonClick c) = c
  ∧ Carrousel.onForwardButtonClick (Carrousel.onBackButtonClick c) = c.
Proof.
  intros Hc. pose proof Hc as [Hindex _].
  destruct (clicked_shows c Forward Hc) as (Hf & Hfp & Hfh).
  destruct (clicked_shows c Back Hc) as (Hb & Hbp & Hbh).
  destruct (clicked_shows _ Back Hf) as (Hfb & Hfbp & Hfbh).
  destruct (clicked_shows _ Forward Hb) as (Hbf & Hbfp & Hbfh).
  cbn [clicked] in *. split; apply shows_photo_determined; try assumption;
    try congruence.
  - unfold Carrousel.onBackButtonClick, Carrousel.onForwardButtonClick. cbn.
    repeat case_comparison. all: lia.
  - unfold Carrousel.onBackButtonClick, Carrousel.onForwardButtonClick. cbn.
    destruct (Z.ltb_spec (Carrousel._photoIndex c - 1) 0); repeat case_comparison.
    all: lia.
Qed.

Lemma Carrousel_back_undoes_forward_witness :
  shows_photo Sample2.carrousel
  ∧ Carrousel.onBackButtonClick (Carrousel.onForwardButtonClick Sample2.carrousel)
    = Sample2.carrousel.
Proof.
  assert (H : shows_photo Sample2.carrousel).
  { split; [cbn; lia|]. exists "a.png". split; reflexivity. }
  split; [exact H|]. exact (proj1 (Carrousel_back_undoes_forward _ H)).
Defined.

Lemma forward_clicks_index (c : Carrousel.t) (k : nat) :
  shows_photo c →
  let c' := Nat.iter k Carrousel.onForwardButtonClick c in
  shows_photo c'
  ∧ Carrousel._photos c' = Carrousel._photos c
  ∧ Carrousel.innerHTML c' = Carrousel.innerHTML c
  ∧ Carrousel._photoIndex c'
    = (Carrousel._photoIndex c + Z.of_nat k) mod Z.of_nat (List.length (Carrousel._photos c)).
Proof.
  intros Hc. pose proof Hc as [Hindex _]. cbn zeta.
  induction k as [|k (Hk & Hphotos & Hhtml & Hi)].
  - cbn [Nat.iter nat_rect]. split; [exact Hc|]. split; [reflexivity|].
    split; [reflexivity|]. rewrite Z.mod_small; lia.
  - destruct (clicked_shows _ Forward Hk) as (Hk' & Hphotos' & Hhtml').
    cbn [clicked] in *.
    change (Nat.iter (S k) Carrousel.onForwardButtonClick c)
      with (Carrousel.onForwardButtonClick (Nat.iter k Carrousel.onForwardButtonClick c)).
    split; [exact Hk'|]. split; [congruence|]. split; [congruence|].
    unfold Carrousel.onForwardButtonClick at 1. cbn. rewrite Hphotos, Hi.
    set (n := Z.of_nat (List.length (Carrousel._photos c))) in *.
    replace (Carrousel._photoIndex c + Z.of_nat (S k))
      with ((Carrousel._photoIndex c + Z.of_nat k) + 1) by lia.
    pose proof (Z.mod_pos_bound (Carrousel._photoIndex c + Z.of_nat k) n ltac:(lia)) as Hm.
    rewrite <- (Z.add_mod_idemp_l (Carrousel._photoIndex c + Z.of_nat k) 1 n) by lia.
    destruct (Z.geb_spec ((Carrousel._photoIndex c + Z.of_nat k) mod n + 1) n).
    + replace ((Carrousel._photoIndex c + Z.of_nat k) mod n + 1) with n by lia.
      now rewrite Z.mod_same by lia.
    + now rewrite (Z.mod_small ((Carrousel._photoIndex c + Z.of_nat k) mod n + 1) n)
        by lia.
Qed.

(** X26. The forward button goes round: [k] clicks move the index by
    [k] modulo the number of photos, so as many clicks as there are
    photos lead back to the photo the carrousel started from. *)
Theorem Carrousel_forward_goes_round (c : Carrousel.t) (k : nat) :
  shows_photo c →
  Carrousel._photoIndex (Nat.iter k Carrousel.onForwardButtonClick c)
  = (Carrousel._photoIndex c + Z.of_nat k) mod Z.of_nat (List.length (Carrousel._photos c))
  ∧ Nat.iter (List.length (Carrousel._photos c)) Carrousel.onForwardButtonClick c = c.
Proof.
  intros Hc. pose proof Hc as [Hindex _].
  split; [exact (proj2 (proj2 (proj2 (forward_clicks_index c k Hc))))|].
  destruct (forward_clicks_index c (List.length (Carrousel._photos c)) Hc)
    as (Hn & Hphotos & Hhtml & Hi).
  cbn zeta in *. apply shows_photo_determined; try assumption.
  rewrite Hi.
  rewrite <- (Z.mul_1_l (Z.of_nat (List.length (Carrousel._photos c)))) at 1.
  rewrite Z.mod_add by lia. apply Z.mod_small. lia.
Qed.

Lemma Carrousel_forward_goes_round_witness :
  shows_photo Sample2.carrousel
  ∧ Nat.iter 3 Carrousel.onForwardButtonClick Sample2.carrousel = Sample2.carrousel.
Proof.
  assert (H : shows_photo Sample2.carrousel).
  { split; [cbn; lia|]. exists "a.png". split; reflexivity. }
  split; [exact H|]. exact (proj2 (Carrousel_forward_goes_round _ 0 H)).
Defined.

(** ** Witnesses and a last property of [DataController] *)

Lemma BaseItem_new_rejects_witness :
  BaseItem.new [] VNull = Throw TypeError.
Proof. apply (proj2 (BaseItem_new_rejects [] VNull)). right; left; reflexivity. Defined.

Lemma Payload_new_accepts_witness :
  (∃ p, Payload.new declared_name Sample.form = Normal p)
  ∧ Payload.new declared_name (VStr "form") = Throw TypeError
  ∧ Payload.new declared_name (VObj ["Object"] [("constructor", VNull)])
    = Throw TypeError.
Proof.
  destruct (Payload_new_accepts declared_name Sample.form) as (Hiff & _ & _).
  split; [|split; reflexivity].
  apply Hiff. split; [reflexivity|]. split; [discriminate|].
  now exists (class "Form").
Defined.

(** X27. A [DataController] whose requestor lacks the method
    [onDataControllerCallbackEvent] fails in silence: whatever the
    status a request completes with, no function of the client is
    called, and the promise at the end of the chain is rejected with
    the [TypeError] of the missing method, which nothing handles. *)
Theorem DataController_without_callback (env : client) (host : Host)
    (this : DataController.t) (ev : XMLHttpRequest) :
  BaseController.priv_onSuccessEventHandler (DataController.super this)
    = VFun (Method "DataController" "onSuccessEventHandler") →
  BaseController.priv_onErrorEventHandler (DataController.super this)
    = VFun (Method "DataController" "onErrorEventHandler") →
  has_callback (DataController.priv_requestor this) = false →
  requested DataController.super host this →
  completes host ev →
  ∃ r, DataController.execute env host this = Normal r
    ∧ BaseController.calls r = []
    ∧ BaseController.chained r = Rejected TypeError.
Proof.
  intros Hs He Hcallback Hreq Hev.
  assert (Hcall : ∀ args,
            DataController.call_method env (DataController.priv_requestor this)
              "onDataControllerCallbackEvent" args = ([], Throw TypeError)).
  { intros args. unfold DataController.call_method, has_callback in *.
    destruct (DataController.priv_requestor this) as [ | | | | | | |chain props];
      try reflexivity.
    destruct (assoc _ props) as [[ | | | | | | | ]|]; try reflexivity. discriminate. }
  eexists. split.
  - exact (execute_completed DataController.super (DataController.methods env)
             env host this ev Hreq Hev).
  - cbn [BaseController.calls BaseController.chained].
    unfold BaseController.on_fulfilled, BaseController.on_rejected. unfold_effect.
    rewrite Hs, He.
    destruct (status ev =? 200); cbn;
      unfold DataController.onSuccessEventHandler, DataController.onErrorEventHandler;
      unfold_effect; rewrite ?Hcall; cbn; rewrite ?Hcall; now split.
Qed.

Lemma DataController_without_callback_witness :
  let this :=
    snd (DataController.set_payload declared_name Sample.quiet (Payload.as_value Sample.payload)
           (snd (DataController.set_recipient Sample.quiet
                   (VStr "https://www.example.com/save")
                   (DataController.new (VObj ["Form"; "Object"] []))))) in
  ∃ r, DataController.execute Sample.quiet (Sample.host Sample.not_found) this = Normal r
     ∧ BaseController.calls r = []
     ∧ BaseController.chained r = Rejected TypeError.
Proof.
  cbn zeta.
  apply (DataController_without_callback Sample.quiet (Sample.host Sample.not_found)
           (snd (DataController.set_payload declared_name Sample.quiet (Payload.as_value Sample.payload)
                   (snd (DataController.set_recipient Sample.quiet
                           (VStr "https://www.example.com/save")
                           (DataController.new (VObj ["Form"; "Object"] []))))))
           Sample.not_found eq_refl eq_refl eq_refl).
  - repeat split.
  - apply sample_host_completes. reflexivity.
Defined.
